(** * Decision fusion and risk sizing of the Manifold trading bot

    A shallow embedding of [src/risk_manager.py] (class [RiskManager]) and
    [src/ensemble.py] (class [StrategyEnsemble]), with the properties the
    specification states about them, and of the contrarian and value
    estimators of [src/strategies/], whose signals the two classes consume.

    Numbers.  The Python code computes on [float]; here every float is an
    exact rational ([Q]), compared up to [Qeq].  Rounding error of binary
    floating point is therefore outside the model; everything else
    (comparisons, branch order, the places where a division can raise
    [ZeroDivisionError], [round(x, 2)]) follows the source line by line. *)

From Stdlib Require Import QArith Qround Qabs Lia Lqa ZArith.
From stdpp Require Import gmap strings list fin_maps.

Open Scope Q_scope.

(* ===================================================================== *)
(** ** Python arithmetic on exact rationals *)
(* ===================================================================== *)

(** Outcome of a Python expression that may raise [ZeroDivisionError]. *)
Inductive result (A : Type) : Type :=
| Ok (a : A)
| ZeroDivisionError.
Arguments Ok {A} a.
Arguments ZeroDivisionError {A}.

Definition bind {A B : Type} (r : result A) (k : A -> result B) : result B :=
  match r with
  | Ok a => k a
  | ZeroDivisionError => ZeroDivisionError
  end.

Notation "'let*' x ':=' e 'in' k" := (bind e (fun x => k))
  (at level 10, x name, e at level 200, k at level 200, only parsing).

(** [x < y] as a boolean. *)
Definition Qlt_bool (x y : Q) : bool := negb (Qle_bool y x).

(** [x / y]: raises when the divisor is zero. *)
Definition py_div (x y : Q) : result Q :=
  if Qeq_bool y 0 then ZeroDivisionError else Ok (x / y).

(** [max(a, b)] and [min(a, b)] return the first argument unless the second
    is strictly larger (resp. smaller). *)
Definition py_max (a b : Q) : Q := if Qlt_bool a b then b else a.
Definition py_min (a b : Q) : Q := if Qlt_bool b a then b else a.

(** Nearest integer, exact ties to the even neighbour. *)
Definition round_half_even (x : Q) : Z :=
  let f := Qfloor x in
  let r := x - inject_Z f in
  if Qlt_bool r (1 # 2) then f
  else if Qlt_bool (1 # 2) r then (f + 1)%Z
  else if Z.even f then f else (f + 1)%Z.

(** [round(x, ndigits)]. *)
Definition py_round (x : Q) (ndigits : nat) : Q :=
  let scale := (10 ^ Z.of_nat ndigits)%Z in
  Qred (round_half_even (x * inject_Z scale) # Z.to_pos scale).

(** [sum(xs)] over a list of numbers. *)
Definition py_sum (xs : list Q) : Q := fold_left Qplus xs 0.

(* ===================================================================== *)
(** ** Signals *)
(* ===================================================================== *)

Inductive Direction : Type := YES | NO.

(** Modelled from the spec: [StrategySignal] of [strategies/base_strategy.py],
    which is not among the sources.  The fields are those every constructor
    call in the repository passes; no bound is checked at construction. *)
Record StrategySignal : Type := {
  probability : Q;
  confidence : Q;
  direction : Direction;
  reasoning : string;
  strength : Q
}.

(** The read-only derived attribute. *)
Definition weighted_probability (s : StrategySignal) : Q :=
  probability s * confidence s.


(* ===================================================================== *)
(** ** Risk manager ([src/risk_manager.py]) *)
(* ===================================================================== *)

Module Risk.

(** An entry of [open_positions]: a dict read with [.get]. *)
Record Position : Type := {
  market_id : option string;
  amount : option Q
}.

(** The market dict; only its ['probability'] key is read here. *)
Record Market : Type := {
  market_probability : option Q
}.

Record RiskManager : Type := {
  max_bet_amount : Q;
  min_bet_amount : Q;
  kelly_fraction : Q;
  max_portfolio_risk : Q;
  risk_tolerance : Q;
  open_positions : list Position
}.

(** [RiskManager.__init__] with its keyword defaults. *)
Definition init (max_bet min_bet kelly max_risk tolerance : option Q) : RiskManager :=
  {| max_bet_amount := default 100 max_bet;
     min_bet_amount := default 10 min_bet;
     kelly_fraction := default 0.25 kelly;
     max_portfolio_risk := default 0.30 max_risk;
     risk_tolerance := default 0.25 tolerance;
     open_positions := [] |}.

Definition _get_current_risk (self : RiskManager) : Q :=
  py_sum (map (fun pos => default 0 (amount pos)) (open_positions self)).

Definition _check_portfolio_risk (self : RiskManager) (new_bet balance : Q) : bool :=
  let current_risk := _get_current_risk self in
  let total_risk := current_risk + new_bet in
  let max_risk := max_portfolio_risk self * balance in
  Qle_bool total_risk max_risk.

(** The four quantities the two direction branches assign. *)
Record Odds : Type := {
  edge : Q;
  win_prob : Q;
  lose_prob : Q;
  win_odds : Q
}.

Definition directional_odds (signal : StrategySignal) (market_prob : Q) : result Odds :=
  let estimated_prob := probability signal in
  match direction signal with
  | YES =>
      let* w := py_div (1 - market_prob) market_prob in
      Ok {| edge := estimated_prob - market_prob;
            win_prob := estimated_prob;
            lose_prob := 1 - estimated_prob;
            win_odds := w |}
  | NO =>
      let* w := py_div market_prob (1 - market_prob) in
      Ok {| edge := market_prob - estimated_prob;
            win_prob := 1 - estimated_prob;
            lose_prob := estimated_prob;
            win_odds := w |}
  end.

(** [kelly_fraction_full = (win_prob * win_odds - lose_prob) / win_odds]. *)
Definition kelly_full (o : Odds) : result Q :=
  py_div (win_prob o * win_odds o - lose_prob o) (win_odds o).

(** The clamp to the configured limits. *)
Definition apply_limits (self : RiskManager) (confidence_adjusted_bet : Q) : Q :=
  py_max (min_bet_amount self) (py_min (max_bet_amount self) confidence_adjusted_bet).

(** The portfolio check and the final validation, from the clamped bet on. *)
Definition fit_portfolio (self : RiskManager) (bet_size balance : Q) : option Q :=
  let bet_size :=
    if negb (_check_portfolio_risk self bet_size balance) then
      let max_additional_risk :=
        max_portfolio_risk self * balance - _get_current_risk self in
      py_min bet_size max_additional_risk
    else bet_size in
  if Qlt_bool bet_size (min_bet_amount self) then None
  else Some (py_round bet_size 2).

Definition calculate_bet_size (self : RiskManager) (signal : StrategySignal)
    (market : Market) (balance : Q) : result (option Q) :=
  let market_prob := default 0.5 (market_probability market) in
  let* o := directional_odds signal market_prob in
  if Qlt_bool (edge o) 0.05 then Ok None
  else
    let* kelly_fraction_full := kelly_full o in
    if Qle_bool kelly_fraction_full 0 then Ok None
    else
      let kelly_bet := kelly_fraction_full * kelly_fraction self * balance in
      let confidence_adjusted_bet := kelly_bet * confidence signal in
      let bet_size := apply_limits self confidence_adjusted_bet in
      Ok (fit_portfolio self bet_size balance).

Definition add_position (self : RiskManager) (position : Position) : RiskManager :=
  {| max_bet_amount := max_bet_amount self;
     min_bet_amount := min_bet_amount self;
     kelly_fraction := kelly_fraction self;
     max_portfolio_risk := max_portfolio_risk self;
     risk_tolerance := risk_tolerance self;
     open_positions := open_positions self ++ [position] |}.

(** Keeps every position whose ['market_id'] differs, also those without one. *)
Definition remove_position (self : RiskManager) (closed_id : string) : RiskManager :=
  {| max_bet_amount := max_bet_amount self;
     min_bet_amount := min_bet_amount self;
     kelly_fraction := kelly_fraction self;
     max_portfolio_risk := max_portfolio_risk self;
     risk_tolerance := risk_tolerance self;
     open_positions :=
       filter (fun pos => market_id pos <> Some closed_id) (open_positions self) |}.

Record PortfolioMetrics : Type := {
  total_exposure : Q;
  exposure_ratio : Q;
  num_positions : nat;
  avg_position_size : Q;
  available_capital : Q
}.

(** Both quotients are guarded, by [balance > 0] and [num_positions > 0]. *)
Definition get_portfolio_metrics (self : RiskManager) (balance : Q) : PortfolioMetrics :=
  let total := _get_current_risk self in
  let num := length (open_positions self) in
  {| total_exposure := total;
     exposure_ratio := if Qlt_bool 0 balance then total / balance else 0;
     num_positions := num;
     avg_position_size :=
       if (0 <? num)%nat then total / inject_Z (Z.of_nat num) else 0;
     available_capital := balance - total |}.

Definition should_limit_orders (self : RiskManager) (balance : Q) : bool :=
  let metrics := get_portfolio_metrics self balance in
  if Qlt_bool (max_portfolio_risk self) (exposure_ratio metrics) then true
  else if (20 <=? num_positions metrics)%nat then true
  else false.

End Risk.

(* ===================================================================== *)
(** ** Strategy ensemble ([src/ensemble.py]) *)
(* ===================================================================== *)

Module Ensemble.

(** Modelled from the spec: [BaseStrategy] of [strategies/base_strategy.py],
    which is not among the sources.  The ensemble reads only the name and
    the [enabled] flag of a strategy. *)
Record BaseStrategy : Type := {
  name : string;
  enabled : bool
}.

Record StrategyEnsemble : Type := {
  strategies : gmap string BaseStrategy;
  weights : gmap string Q
}.

(** [sum(d.values())]. *)
Definition sum_values (m : gmap string Q) : Q :=
  map_fold (fun _ v acc => acc + v) 0 m.

(** The division is reached only under [total > 0]. *)
Definition _normalize_weights (self : StrategyEnsemble) : StrategyEnsemble :=
  let total := sum_values (weights self) in
  if Qlt_bool 0 total then
    {| strategies := strategies self;
       weights := (fun v => v / total) <$> weights self |}
  else self.

(** [{s.name: s for s in strategies}]: a later strategy replaces an earlier
    one of the same name. *)
Definition strategies_by_name (strats : list BaseStrategy) : gmap string BaseStrategy :=
  fold_left (fun d s => <[name s := s]> d) strats ∅.

(** [{s.name: 1.0 / len(strategies) for s in strategies}]; the quotient is
    evaluated once per element, so never on an empty list. *)
Definition uniform_weights (strats : list BaseStrategy) : gmap string Q :=
  fold_left (fun d s => <[name s := 1 / inject_Z (Z.of_nat (length strats))]> d)
            strats ∅.

(** [StrategyEnsemble.__init__]; [weights or ...] takes the default for
    [None] and for the empty dict. *)
Definition init (strats : list BaseStrategy) (ws : option (gmap string Q))
    : StrategyEnsemble :=
  let supplied := default ∅ ws in
  _normalize_weights
    {| strategies := strategies_by_name strats;
       weights := if decide (supplied = ∅) then uniform_weights strats
                  else supplied |}.

(** The five accumulators of the voting loop. *)
Record Tally : Type := {
  total_weight : Q;
  weighted_prob : Q;
  weighted_confidence : Q;
  yes_votes : Q;
  no_votes : Q
}.

Definition tally0 : Tally :=
  {| total_weight := 0; weighted_prob := 0; weighted_confidence := 0;
     yes_votes := 0; no_votes := 0 |}.

(** [self.weights.get(name, 0)]. *)
Definition weight_of (self : StrategyEnsemble) (n : string) : Q :=
  default 0 (weights self !! n).

(** One iteration of [for name, signal in signals.items()]. *)
Definition vote (self : StrategyEnsemble) (t : Tally) (item : string * StrategySignal)
    : Tally :=
  let weight := weight_of self (fst item) * confidence (snd item) in
  {| total_weight := total_weight t + weight;
     weighted_prob := weighted_prob t + probability (snd item) * weight;
     weighted_confidence := weighted_confidence t + confidence (snd item) * weight;
     yes_votes := match direction (snd item) with
                  | YES => yes_votes t + weight
                  | NO => yes_votes t
                  end;
     no_votes := match direction (snd item) with
                 | YES => no_votes t
                 | NO => no_votes t + weight
                 end |}.

Definition direction_name (d : Direction) : string :=
  match d with YES => "YES" | NO => "NO" end.

Fixpoint join (sep : string) (parts : list string) : string :=
  match parts with
  | [] => ""
  | [p] => p
  | p :: rest => p +:+ sep +:+ join sep rest
  end.

Section Combine.

(** The float formats of the reasoning text, [f"{x:.0f}"] and [f"{x:.1%}"],
    are left to the caller: they only produce diagnostic text. *)
Variable format_0f : Q -> string.
Variable format_1pct : Q -> string.

Definition reasoning_part (self : StrategyEnsemble) (item : string * StrategySignal)
    : string :=
  let weight_pct := weight_of self (fst item) * 100 in
  fst item +:+ " (" +:+ format_0f weight_pct +:+ "%): "
    +:+ direction_name (direction (snd item)) +:+ " @ "
    +:+ format_1pct (probability (snd item)).

(** [signals] is the dict's items in insertion order.  The divisions are
    reached only under [total_weight != 0]. *)
Definition _combine_signals (self : StrategyEnsemble)
    (signals : list (string * StrategySignal)) : option StrategySignal :=
  match signals with
  | [] => None
  | _ =>
      let t := fold_left (vote self) signals tally0 in
      if Qeq_bool (total_weight t) 0 then None
      else
        let consensus_prob := weighted_prob t / total_weight t in
        let consensus_confidence := weighted_confidence t / total_weight t in
        let consensus_direction :=
          if Qlt_bool (no_votes t) (yes_votes t) then YES else NO in
        let agreement := Qabs (yes_votes t - no_votes t) / total_weight t in
        let reasoning_parts := map (reasoning_part self) signals in
        Some {| probability := consensus_prob;
                confidence := consensus_confidence;
                direction := consensus_direction;
                reasoning := "Ensemble: " +:+ join "; " reasoning_parts;
                strength := agreement |}
  end.

End Combine.

(** [perf.get(key, 0)]. *)
Definition perf_get (perf : gmap string Q) (key : string) : Q :=
  default 0 (perf !! key).

(** The score one iteration of the loop of [update_weights] stores. *)
Definition performance_score (perf : gmap string Q) : Q :=
  let win_rate := perf_get perf "win_rate" in
  let total_return := perf_get perf "total_return" in
  let total_trades := perf_get perf "total_trades" in
  if Qlt_bool 0 total_trades then
    let score := win_rate * 0.6 + (total_return / total_trades) * 0.4 in
    py_max 0.1 score
  else 0.5.

(** The loop skips every name that is not a registered strategy. *)
Definition performance_scores (self : StrategyEnsemble)
    (performance_data : gmap string (gmap string Q)) : gmap string Q :=
  performance_score <$>
    filter (fun kv => is_Some (strategies self !! fst kv)) performance_data.

Definition update_weights (self : StrategyEnsemble)
    (performance_data : gmap string (gmap string Q)) : StrategyEnsemble :=
  let scores := performance_scores self performance_data in
  if decide (scores = ∅) then self
  else
    let total_score := sum_values scores in
    if Qlt_bool 0 total_score then
      {| strategies := strategies self;
         weights := (fun score => score / total_score) <$> scores |}
    else self.

(** Sets the flag of a registered strategy; other names are ignored. *)
Definition enable_strategy (self : StrategyEnsemble) (n : string) (flag : bool)
    : StrategyEnsemble :=
  {| strategies :=
       alter (fun s => {| name := name s; enabled := flag |}) n (strategies self);
     weights := weights self |}.

End Ensemble.

(* ===================================================================== *)
(** ** Two estimators ([src/strategies/]) *)
(* ===================================================================== *)

(** The market dict as the estimators read it: ['probability'], ['volume'],
    ['uniqueBettorCount'] and the ['pool'] dict, each possibly missing. *)
Record MarketSnapshot : Type := {
  mkt_probability : option Q;
  mkt_volume : option Q;
  mkt_uniqueBettorCount : option Q;
  mkt_pool : option (gmap string Q)
}.

(** The same dict as the risk manager reads it. *)
Definition as_market (market : MarketSnapshot) : Risk.Market :=
  {| Risk.market_probability := mkt_probability market |}.

Module Contrarian.

Record ContrarianStrategy : Type := {
  extreme_threshold_high : Q;
  extreme_threshold_low : Q;
  reversion_target : Q
}.

(** [ContrarianStrategy.__init__] with its keyword defaults. *)
Definition init (high low target : option Q) : ContrarianStrategy :=
  {| extreme_threshold_high := default 0.85 high;
     extreme_threshold_low := default 0.15 low;
     reversion_target := default 0.5 target |}.

(** The two values of [extreme_type]. *)
Inductive ExtremeType : Type := high | low.

Definition _calculate_reversion_target (self : ContrarianStrategy)
    (current_prob : Q) (extreme_type : ExtremeType) : Q :=
  let reversion_strength := 0.3 in
  let target :=
    match extreme_type with
    | high => current_prob - (current_prob - reversion_target self) * reversion_strength
    | low => current_prob + (reversion_target self - current_prob) * reversion_strength
    end in
  py_max 0.05 (py_min 0.95 target).

Definition _calculate_confidence (self : ContrarianStrategy)
    (current_prob volume num_traders : Q) (extreme_type : ExtremeType) : result Q :=
  let* extremeness :=
    match extreme_type with
    | high => py_div (current_prob - extreme_threshold_high self)
                     (1.0 - extreme_threshold_high self)
    | low => py_div (extreme_threshold_low self - current_prob)
                    (extreme_threshold_low self)
    end in
  let extremeness := py_max 0 (py_min 1 extremeness) in
  let participation_factor := py_min 1.0 (num_traders / 10) in
  let volume_factor := py_max 0.3 (1.0 - py_min 1.0 (volume / 10000)) in
  let confidence :=
    extremeness * 0.5 + participation_factor * 0.3 + volume_factor * 0.2 in
  Ok (py_max 0.2 (py_min 0.8 confidence)).

Section Analyze.

(** The formats of the reasoning text, [f"{x:.1%}"] and [f"{n}"]. *)
Variable format_1pct : Q -> string.
Variable format_str : Q -> string.

Definition analyze (self : ContrarianStrategy) (market : MarketSnapshot)
    : result (option StrategySignal) :=
  let current_prob := default 0.5 (mkt_probability market) in
  let volume := default 0 (mkt_volume market) in
  let num_traders := default 0 (mkt_uniqueBettorCount market) in
  if Qlt_bool num_traders 3 then Ok None
  else if Qle_bool (extreme_threshold_high self) current_prob then
    let estimated_prob := _calculate_reversion_target self current_prob high in
    let* confidence := _calculate_confidence self current_prob volume num_traders high in
    let strength := (current_prob - extreme_threshold_high self) * confidence in
    let reasoning :=
      "Market at extreme high probability (" +:+ format_1pct current_prob +:+ "). "
      +:+ "Expect mean reversion. " +:+ format_str num_traders
      +:+ " traders may be overconfident. "
      +:+ "Historical patterns suggest reversion toward "
      +:+ format_1pct estimated_prob +:+ "." in
    Ok (Some {| probability := estimated_prob; confidence := confidence;
                direction := NO; reasoning := reasoning;
                strength := py_min 1.0 strength |})
  else if Qle_bool current_prob (extreme_threshold_low self) then
    let estimated_prob := _calculate_reversion_target self current_prob low in
    let* confidence := _calculate_confidence self current_prob volume num_traders low in
    let strength := (extreme_threshold_low self - current_prob) * confidence in
    let reasoning :=
      "Market at extreme low probability (" +:+ format_1pct current_prob +:+ "). "
      +:+ "Expect mean reversion. " +:+ format_str num_traders
      +:+ " traders may be overly pessimistic. "
      +:+ "Historical patterns suggest reversion toward "
      +:+ format_1pct estimated_prob +:+ "." in
    Ok (Some {| probability := estimated_prob; confidence := confidence;
                direction := YES; reasoning := reasoning;
                strength := py_min 1.0 strength |})
  else Ok None.

End Analyze.

(** [should_trade]; [base_ok] is what [super().should_trade(market, signal)]
    returned, the base class not being among the sources. *)
Definition should_trade (base_ok : bool) (signal : StrategySignal) : bool :=
  if negb base_ok then false
  else if Qlt_bool (confidence signal) 0.4 then false
  else if Qlt_bool (strength signal) 0.3 then false
  else true.

End Contrarian.

Module Value.

Record ValueStrategy : Type := {
  min_liquidity : Q;
  min_traders : Q;
  value_threshold : Q
}.

(** [ValueStrategy.__init__] with its keyword defaults. *)
Definition init (liquidity traders threshold : option Q) : ValueStrategy :=
  {| min_liquidity := default 100 liquidity;
     min_traders := default 5 traders;
     value_threshold := default 0.10 threshold |}.

(** Only the probability and the number of traders decide the estimate; the
    question, description and close time are read and not used. *)
Definition _estimate_fundamental_value (market : MarketSnapshot) : option Q :=
  let current_prob := default 0.5 (mkt_probability market) in
  let num_traders := default 0 (mkt_uniqueBettorCount market) in
  if Qlt_bool num_traders 10 then
    let fundamental_value := 0.5 + (current_prob - 0.5) * 0.7 in
    Some fundamental_value
  else None.

Definition _calculate_confidence (liquidity num_traders value_gap : Q) : Q :=
  let liquidity_factor := py_max 0.3 (1.0 - py_min 1.0 (liquidity / 1000)) in
  let trader_factor := py_min 1.0 (num_traders / 20) in
  let gap_factor := py_min 1.0 (value_gap * 2) in
  let confidence := liquidity_factor * 0.3 + trader_factor * 0.3 + gap_factor * 0.4 in
  py_max 0.2 (py_min 0.9 confidence).

Section Analyze.

(** The formats of the reasoning text, [f"{x:.1%}"], [f"{x:.0f}"], [f"{n}"]. *)
Variable format_1pct : Q -> string.
Variable format_0f : Q -> string.
Variable format_str : Q -> string.

Definition analyze (self : ValueStrategy) (market : MarketSnapshot)
    : option StrategySignal :=
  let current_prob := default 0.5 (mkt_probability market) in
  let num_traders := default 0 (mkt_uniqueBettorCount market) in
  let liquidity := default ∅ (mkt_pool market) in
  let total_liquidity := default 0 (liquidity !! "YES") + default 0 (liquidity !! "NO") in
  if Qlt_bool total_liquidity (min_liquidity self)
     || Qlt_bool num_traders (min_traders self) then None
  else
    match _estimate_fundamental_value market with
    | None => None
    | Some fundamental_value =>
        let value_gap := Qabs (fundamental_value - current_prob) in
        if Qlt_bool value_gap (value_threshold self) then None
        else
          let direction :=
            if Qlt_bool current_prob fundamental_value then YES else NO in
          let estimated_prob := fundamental_value in
          let confidence := _calculate_confidence total_liquidity num_traders value_gap in
          let reasoning :=
            "Fundamental value estimate: " +:+ format_1pct fundamental_value
            +:+ " vs market " +:+ format_1pct current_prob +:+ ". "
            +:+ "Value gap of " +:+ format_1pct value_gap +:+ " detected. "
            +:+ "Liquidity: " +:+ format_0f total_liquidity
            +:+ ", Traders: " +:+ format_str num_traders +:+ "." in
          Some {| probability := estimated_prob; confidence := confidence;
                  direction := direction; reasoning := reasoning;
                  strength := py_min 1.0 (value_gap * 2) |}
    end.

End Analyze.

End Value.

(* ===================================================================== *)
(** ** Quantities named by the specification, and sample inputs *)
(* ===================================================================== *)

Import Risk Ensemble.

(** [market.get('probability', 0.5)]. *)
Definition quoted_probability (market : Market) : Q :=
  default 0.5 (market_probability market).

(** The edge in the direction being bet. *)
Definition directional_edge (signal : StrategySignal) (market_prob : Q) : Q :=
  match direction signal with
  | YES => probability signal - market_prob
  | NO => market_prob - probability signal
  end.

(** The divisor of the payout ratio of the signal's direction. *)
Definition odds_divisor (signal : StrategySignal) (market_prob : Q) : Q :=
  match direction signal with
  | YES => market_prob
  | NO => 1 - market_prob
  end.


(** Room left under the portfolio ceiling. *)
Definition portfolio_room (self : RiskManager) (balance : Q) : Q :=
  max_portfolio_risk self * balance - _get_current_risk self.

(** Steps 6 to 8 in the specification's words: shrink to
    [max(0, ceiling - exposure)], reject below the floor, round. *)
Definition shrink_as_specified (self : RiskManager) (balance : Q) : option Q :=
  let target := py_max 0 (portfolio_room self balance) in
  if Qlt_bool target (min_bet_amount self) then None
  else Some (py_round target 2).

(** What the source does at the same place: shrink to the room itself. *)
Definition shrink_to_room (self : RiskManager) (balance : Q) : option Q :=
  let target := portfolio_room self balance in
  if Qlt_bool target (min_bet_amount self) then None
  else Some (py_round target 2).

(** A signal as the tests build it. *)
Definition test_signal (p c : Q) (d : Direction) : StrategySignal :=
  {| probability := p; confidence := c; direction := d;
     reasoning := "Test"; strength := 0.75 |}.

Definition market_at (p : Q) : Market := {| market_probability := Some p |}.

Definition default_manager : RiskManager := Risk.init None None None None None.

Definition manager_with_exposure (x : Q) : RiskManager :=
  add_position default_manager {| market_id := Some "market1"; amount := Some x |}.

#[global] Instance Direction_eq_dec : EqDecision Direction.
Proof. solve_decision. Defined.

(** Sum of a list of numbers, written as a mathematical sum. *)
Definition Qsum (xs : list Q) : Q := fold_right Qplus 0 xs.

(** Configured weight times the signal's confidence. *)
Definition effective_weight (self : StrategyEnsemble) (item : string * StrategySignal) : Q :=
  weight_of self (fst item) * confidence (snd item).

Definition total_effective_weight (self : StrategyEnsemble)
    (signals : list (string * StrategySignal)) : Q :=
  Qsum (map (effective_weight self) signals).

(** Summed effective weight of the signals of one direction. *)
Definition mass (d : Direction) (self : StrategyEnsemble)
    (signals : list (string * StrategySignal)) : Q :=
  Qsum (map (effective_weight self)
            (filter (fun item => direction (snd item) = d) signals)).

(** Sum over the signals of a field weighted by the effective weight. *)
Definition weighted_sum (field : StrategySignal -> Q) (self : StrategyEnsemble)
    (signals : list (string * StrategySignal)) : Q :=
  Qsum (map (fun item => field (snd item) * effective_weight self item) signals).

(** The score in the specification's words. *)
Definition score_as_specified (win_rate total_return total_trades : Q) : Q :=
  if Qlt_bool 0 total_trades then
    py_max 0.1 (0.6 * win_rate + 0.4 * (total_return / total_trades))
  else 0.5.

(** Sum equal to 1.0 within the tolerance of the specification. *)
Definition sums_to_one (m : gmap string Q) : Prop :=
  Qabs (sum_values m - 1) <= 1e-9.

Definition strategy (n : string) : BaseStrategy := {| name := n; enabled := true |}.

(** A performance record as [get_performance_metrics] returns it. *)
Definition performance (win_rate total_return total_trades : Q) : gmap string Q :=
  {[ "win_rate" := win_rate; "total_return" := total_return;
     "total_trades" := total_trades ]}.

Definition two_strategies : list BaseStrategy :=
  [strategy "Momentum Trader"; strategy "Contrarian"].

Definition no_format (x : Q) : string := "".

(** The opposite side of a binary market. *)
Definition opposite (d : Direction) : Direction :=
  match d with YES => NO | NO => YES end.

(** The same opinion stated about the complementary outcome. *)
Definition mirror_signal (s : StrategySignal) : StrategySignal :=
  {| probability := 1 - probability s; confidence := confidence s;
     direction := opposite (direction s); reasoning := reasoning s;
     strength := strength s |}.

Definition mirror_market (market : Market) : Market :=
  {| market_probability := Some (1 - quoted_probability market) |}.

(** Amount staked on one market, over all its ledger entries. *)
Definition staked_on (self : RiskManager) (closed_id : string) : Q :=
  Qsum (map (fun pos => default 0 (amount pos))
            (filter (fun pos => market_id pos = Some closed_id) (open_positions self))).

(** Two outcomes of the odds computation that raise together or carry
    equal numbers. *)
Definition odds_equiv (r1 r2 : result Odds) : Prop :=
  match r1, r2 with
  | Ok a, Ok b =>
      edge a == edge b /\ win_prob a == win_prob b
      /\ lose_prob a == lose_prob b /\ win_odds a == win_odds b
  | ZeroDivisionError, ZeroDivisionError => True
  | _, _ => False
  end.

(** What [strategy.analyze(market, **kwargs)] did for one strategy: it
    returned a signal, returned [None], raised an exception of class
    [Exception], or raised one outside that class ([KeyboardInterrupt],
    [SystemExit]). *)
Inductive Outcome : Type :=
| Signalled (signal : StrategySignal)
| Abstained
| Raised
| Escaped.

(** A call that returns a value or lets an exception through. *)
Inductive Call (A : Type) : Type :=
| Returned (a : A)
| Propagated.
Arguments Returned {A} a.
Arguments Propagated {A}.

(** One iteration of the collecting loop of [StrategyEnsemble.analyze]: a
    disabled strategy is skipped; [except Exception] logs and swallows what
    it catches; anything else raised by the strategy leaves the loop. *)
Definition collect_one (run : BaseStrategy -> Outcome)
    (acc : Call (list (string * StrategySignal))) (item : string * BaseStrategy)
    : Call (list (string * StrategySignal)) :=
  match acc with
  | Propagated => Propagated
  | Returned signals =>
      if negb (enabled (snd item)) then Returned signals
      else match run (snd item) with
           | Signalled signal => Returned (signals ++ [(fst item, signal)])
           | Abstained => Returned signals
           | Raised => Returned signals
           | Escaped => Propagated
           end
  end.

(** The loop over [self.strategies.items()] (a dict: the names are
    distinct, so storing under the name appends). *)
Definition collect_signals (items : list (string * BaseStrategy))
    (run : BaseStrategy -> Outcome) : Call (list (string * StrategySignal)) :=
  fold_left (collect_one run) items (Returned []).

(** [StrategyEnsemble.analyze], given the items of [self.strategies] and what
    each strategy's own [analyze] does on this market. *)
Definition analyze (format_0f format_1pct : Q -> string) (self : StrategyEnsemble)
    (items : list (string * BaseStrategy)) (run : BaseStrategy -> Outcome)
    : Call (option StrategySignal) :=
  match collect_signals items run with
  | Propagated => Propagated
  | Returned [] => Returned None
  | Returned signals => Returned (_combine_signals format_0f format_1pct self signals)
  end.

(** A strategy that adds nothing in this cycle and does not stop it: it is
    disabled, or its [analyze] returned [None] or raised an [Exception]. *)
Definition silent (run : BaseStrategy -> Outcome) (item : string * BaseStrategy)
    : bool :=
  negb (enabled (snd item))
  || match run (snd item) with
     | Abstained => true
     | Raised => true
     | _ => false
     end.

(** A strategy whose [analyze] lets an exception out of the ensemble. *)
Definition escapes (run : BaseStrategy -> Outcome) (item : string * BaseStrategy)
    : bool :=
  enabled (snd item)
  && match run (snd item) with Escaped => true | _ => false end.

(** Three strategies and a cycle in which the second one raises. *)
Definition three_items : list (string * BaseStrategy) :=
  [("Contrarian", strategy "Contrarian");
   ("Momentum Trader", strategy "Momentum Trader");
   ("Value Seeker", strategy "Value Seeker")].

Definition momentum_raises (s : BaseStrategy) : Outcome :=
  if String.eqb (name s) "Momentum Trader" then Raised
  else if String.eqb (name s) "Contrarian" then Signalled (test_signal 0.70 0.80 NO)
  else Signalled (test_signal 0.60 0.50 YES).

(* ===================================================================== *)
(** ** Facts about the arithmetic helpers *)
(* ===================================================================== *)

Lemma Qlt_bool_true (x y : Q) : Qlt_bool x y = true <-> x < y.
Proof.
  unfold Qlt_bool. rewrite negb_true_iff. split; intros H.
  - apply Qnot_le_lt. intros Hle. apply Qle_bool_iff in Hle. congruence.
  - destruct (Qle_bool y x) eqn:E; [|reflexivity].
    apply Qle_bool_iff in E. lra.
Qed.

Lemma Qlt_bool_false (x y : Q) : Qlt_bool x y = false <-> y <= x.
Proof.
  unfold Qlt_bool. rewrite negb_false_iff. apply Qle_bool_iff.
Qed.

Lemma Qle_bool_false (x y : Q) : Qle_bool x y = false <-> y < x.
Proof.
  rewrite <- Qlt_bool_true. unfold Qlt_bool.
  destruct (Qle_bool x y); simpl; intuition congruence.
Qed.

Lemma Qeq_bool_false (x y : Q) : Qeq_bool x y = false <-> ~ x == y.
Proof.
  split; [apply Qeq_bool_neq|]. intros H.
  destruct (Qeq_bool x y) eqn:E; [|reflexivity].
  apply Qeq_bool_iff in E. contradiction.
Qed.

(** Turn every boolean comparison of the context into its proposition. *)
Ltac reflect_cmp :=
  repeat match goal with
  | H : Qlt_bool _ _ = true |- _ => apply Qlt_bool_true in H
  | H : Qlt_bool _ _ = false |- _ => apply Qlt_bool_false in H
  | H : Qle_bool _ _ = true |- _ => apply Qle_bool_iff in H
  | H : Qle_bool _ _ = false |- _ => apply Qle_bool_false in H
  | H : Qeq_bool _ _ = true |- _ => apply Qeq_bool_iff in H
  | H : Qeq_bool _ _ = false |- _ => apply Qeq_bool_false in H
  end.

(** Split on the first comparison the goal branches on. *)
Ltac no_branch t :=
  lazymatch t with
  | context [if _ then _ else _] => fail
  | _ => idtac
  end.

Ltac split_cmp :=
  match goal with
  | |- context [Qlt_bool ?a ?b] =>
      no_branch a; no_branch b;
      let E := fresh "E" in destruct (Qlt_bool a b) eqn:E
  | |- context [Qle_bool ?a ?b] =>
      no_branch a; no_branch b;
      let E := fresh "E" in destruct (Qle_bool a b) eqn:E
  | |- context [Qeq_bool ?a ?b] =>
      no_branch a; no_branch b;
      let E := fresh "E" in destruct (Qeq_bool a b) eqn:E
  end.

Lemma py_div_Ok (x y : Q) : ~ y == 0 -> py_div x y = Ok (x / y).
Proof.
  intros H. unfold py_div. apply Qeq_bool_false in H. now rewrite H.
Qed.

Lemma py_div_raises (x y : Q) : y == 0 -> py_div x y = ZeroDivisionError.
Proof.
  intros H. unfold py_div. apply Qeq_bool_iff in H. now rewrite H.
Qed.

Lemma py_div_inv (x y q : Q) : py_div x y = Ok q -> ~ y == 0 /\ q = x / y.
Proof.
  unfold py_div. split_cmp; [discriminate|]. reflect_cmp.
  intros [= <-]. auto.
Qed.

Lemma py_min_le_l (a b : Q) : py_min a b <= a.
Proof. unfold py_min. split_cmp; reflect_cmp; lra. Qed.

Lemma py_min_le_r (a b : Q) : py_min a b <= b.
Proof. unfold py_min. split_cmp; reflect_cmp; lra. Qed.

Lemma py_min_glb (a b c : Q) : c <= a -> c <= b -> c <= py_min a b.
Proof. unfold py_min. split_cmp; reflect_cmp; lra. Qed.

Lemma py_max_ge_l (a b : Q) : a <= py_max a b.
Proof. unfold py_max. split_cmp; reflect_cmp; lra. Qed.


Lemma py_max_lub (a b c : Q) : a <= c -> b <= c -> py_max a b <= c.
Proof. unfold py_max. split_cmp; reflect_cmp; lra. Qed.


Lemma py_min_mono_l (a a' b : Q) : a <= a' -> py_min a b <= py_min a' b.
Proof.
  intros H. apply py_min_glb; [|apply py_min_le_r].
  pose proof (py_min_le_l a b). lra.
Qed.


(** Rounding is monotone. *)
Lemma round_half_even_mono (x y : Q) :
  x <= y -> (round_half_even x <= round_half_even y)%Z.
Proof.
  intros Hxy. unfold round_half_even.
  pose proof (Qfloor_resp_le x y Hxy) as Hf.
  pose proof (Qfloor_le x) as Hx0. pose proof (Qlt_floor x) as Hx1.
  pose proof (Qfloor_le y) as Hy0. pose proof (Qlt_floor y) as Hy1.
  rewrite inject_Z_plus in Hx1, Hy1.
  set (fx := Qfloor x) in *. set (fy := Qfloor y) in *.
  assert (Hstep : (fx < fy)%Z -> inject_Z fx + 1 <= inject_Z fy).
  { intros Hlt.
    assert (Hz : inject_Z (fx + 1) <= inject_Z fy) by (rewrite <- Zle_Qle; lia).
    rewrite inject_Z_plus in Hz. exact Hz. }
  destruct (Z.eq_dec fx fy) as [Heq | Hne].
  - rewrite <- Heq in *. clear Heq Hf Hstep.
    repeat (split_cmp; reflect_cmp); try lia; try lra;
      destruct (Z.even fx); lia.
  - assert (Hlt : (fx < fy)%Z) by lia. specialize (Hstep Hlt).
    repeat (split_cmp; reflect_cmp); try lia;
      repeat match goal with |- context [Z.even ?z] => destruct (Z.even z) end;
      lia.
Qed.

Lemma py_round_mono (x y : Q) (n : nat) : x <= y -> py_round x n <= py_round y n.
Proof.
  intros Hxy. unfold py_round. rewrite !Qred_correct.
  assert (Hs : (0 < 10 ^ Z.of_nat n)%Z) by (apply Z.pow_pos_nonneg; lia).
  set (s := (10 ^ Z.of_nat n)%Z) in *.
  assert (Hm : x * inject_Z s <= y * inject_Z s).
  { apply Qmult_le_compat_r; [exact Hxy|].
    change 0 with (inject_Z 0). rewrite <- Zle_Qle. lia. }
  apply round_half_even_mono in Hm.
  unfold Qle. simpl. apply Z.mul_le_mono_nonneg_r; [lia | exact Hm].
Qed.

(* ===================================================================== *)
(** ** Risk sizing: odds, edge and the Kelly fraction *)
(* ===================================================================== *)

Lemma directional_odds_Ok (signal : StrategySignal) (m : Q) :
  ~ odds_divisor signal m == 0 ->
  exists o, directional_odds signal m = Ok o
            /\ edge o = directional_edge signal m.
Proof.
  unfold odds_divisor, directional_odds, directional_edge.
  destruct (direction signal); intros H; rewrite (py_div_Ok _ _ H); simpl;
    eexists; (split; [reflexivity|]); reflexivity.
Qed.

Lemma directional_odds_raises (signal : StrategySignal) (m : Q) :
  odds_divisor signal m == 0 -> directional_odds signal m = ZeroDivisionError.
Proof.
  unfold odds_divisor, directional_odds.
  destruct (direction signal); intros H; now rewrite (py_div_raises _ _ H).
Qed.

Lemma directional_odds_edge (signal : StrategySignal) (m : Q) (o : Odds) :
  directional_odds signal m = Ok o -> edge o = directional_edge signal m.
Proof.
  unfold directional_odds, directional_edge, py_div.
  destruct (direction signal); split_cmp; simpl; try discriminate;
    now intros [= <-].
Qed.

(** Between 0 and 1 the Kelly fraction is the edge over the price of the
    opposite side, in either direction. *)
Lemma kelly_closed_form (signal : StrategySignal) (m : Q) (o : Odds) :
  0 < m -> m < 1 ->
  directional_odds signal m = Ok o ->
  exists k, kelly_full o = Ok k
            /\ k == edge o / (1 - odds_divisor signal m).
Proof.
  intros H0 H1. unfold directional_odds, kelly_full, odds_divisor.
  destruct (direction signal).
  - rewrite py_div_Ok by lra. simpl. intros [= <-]. simpl.
    assert (Hw : 0 < (1 - m) / m) by (apply Qlt_shift_div_l; lra).
    rewrite py_div_Ok by lra.
    eexists; split; [reflexivity|]. field. split; lra.
  - rewrite py_div_Ok by lra. simpl. intros [= <-]. simpl.
    assert (Hw : 0 < m / (1 - m)) by (apply Qlt_shift_div_l; lra).
    rewrite py_div_Ok by lra.
    eexists; split; [reflexivity|]. field. split; lra.
Qed.

Lemma kelly_positive (signal : StrategySignal) (m : Q) (o : Odds) :
  0 < m -> m < 1 ->
  directional_odds signal m = Ok o ->
  0 < edge o ->
  exists k, kelly_full o = Ok k /\ 0 < k.
Proof.
  intros H0 H1 Ho He.
  destruct (kelly_closed_form signal m o H0 H1 Ho) as (k & Hk & Hform).
  exists k. split; [exact Hk|]. rewrite Hform.
  apply Qlt_shift_div_l; unfold odds_divisor; destruct (direction signal); lra.
Qed.

(** C1, amended: wherever the payout ratio of the signal's direction is
    defined (quoted probability not 0 for YES, not 1 for NO), a directional
    edge below 0.05 makes [calculate_bet_size] return [None], whatever the
    confidence, the balance and the open positions. *)
Theorem C1_small_edge_rejected (self : RiskManager) (signal : StrategySignal)
    (market : Market) (balance : Q) :
  ~ odds_divisor signal (quoted_probability market) == 0 ->
  directional_edge signal (quoted_probability market) < 0.05 ->
  calculate_bet_size self signal market balance = Ok None.
Proof.
  intros Hd He.
  destruct (directional_odds_Ok _ _ Hd) as (o & Ho & Hedge).
  unfold calculate_bet_size. fold (quoted_probability market).
  rewrite Ho. simpl. rewrite Hedge.
  apply Qlt_bool_true in He. now rewrite He.
Qed.

Lemma C1_small_edge_rejected_witness :
  calculate_bet_size default_manager (test_signal 0.51 0.80 YES) (market_at 0.50) 1000
  = Ok None.
Proof.
  apply C1_small_edge_rejected.
  - vm_compute. intros H. discriminate H.
  - vm_compute. reflexivity.
Defined.

(** C1 as stated fails: with a YES signal on a market quoted at 0 the edge
    0.01 is below the threshold, yet the call raises instead of returning
    [None], because the payout ratio is computed before the edge is tested. *)
Lemma C1_counterexample :
  directional_edge (test_signal 0.01 0.80 YES) (quoted_probability (market_at 0)) < 0.05
  /\ calculate_bet_size default_manager (test_signal 0.01 0.80 YES) (market_at 0) 1000
     = ZeroDivisionError
  /\ calculate_bet_size default_manager (test_signal 0.01 0.80 YES) (market_at 0) 1000
     <> Ok None.
Proof.
  split; [vm_compute; reflexivity|].
  split; [vm_compute; reflexivity|].
  vm_compute. intros H. discriminate H.
Qed.

(** C9, amended: for a quoted probability strictly between 0 and 1, an edge
    that passes the minimum-edge check always gives a positive Kelly
    fraction (the edge over the price of the other side), so the Kelly
    rejection cannot be reached after the edge check. *)
Theorem C9_kelly_positive_after_edge_check (signal : StrategySignal) (m : Q) (o : Odds) :
  0 < m -> m < 1 ->
  directional_odds signal m = Ok o ->
  0.05 <= edge o ->
  exists k, kelly_full o = Ok k
            /\ 0 < k
            /\ k == edge o / (1 - odds_divisor signal m).
Proof.
  intros H0 H1 Ho He.
  destruct (kelly_closed_form signal m o H0 H1 Ho) as (k & Hk & Hform).
  destruct (kelly_positive signal m o H0 H1 Ho) as (k' & Hk' & Hpos); [lra|].
  rewrite Hk in Hk'. injection Hk' as <-.
  exists k. auto.
Qed.

Lemma C9_kelly_positive_after_edge_check_witness :
  exists k, kelly_full {| edge := 0.70 - 0.50; win_prob := 0.70;
                          lose_prob := 1 - 0.70;
                          win_odds := (1 - 0.50) / 0.50 |} = Ok k
            /\ 0 < k
            /\ k == (0.70 - 0.50) / (1 - 0.50).
Proof.
  apply (C9_kelly_positive_after_edge_check (test_signal 0.70 0.80 YES) 0.50).
  - vm_compute. reflexivity.
  - vm_compute. reflexivity.
  - vm_compute. reflexivity.
  - vm_compute. intros H. discriminate H.
Defined.

(** C9 as stated fails: no signal and no quoted probability strictly between
    0 and 1 pass the edge check with a Kelly fraction that is zero or
    negative. *)
Lemma C9_counterexample :
  ~ exists (signal : StrategySignal) (m : Q) (o : Odds) (k : Q),
      0 < m /\ m < 1
      /\ directional_odds signal m = Ok o
      /\ 0.05 <= edge o
      /\ kelly_full o = Ok k
      /\ k <= 0.
Proof.
  intros (signal & m & o & k & H0 & H1 & Ho & He & Hk & Hneg).
  destruct (kelly_positive signal m o H0 H1 Ho) as (k' & Hk' & Hpos); [lra|].
  rewrite Hk in Hk'. injection Hk' as <-. lra.
Qed.

(** C10: [calculate_bet_size] raises [ZeroDivisionError] for a YES signal on
    a market quoted at 0 and for a NO signal on a market quoted at 1, and it
    returns (an amount or [None]) for every quoted probability strictly
    between 0 and 1. *)
Theorem C10_total_between_0_and_1 (self : RiskManager) (signal : StrategySignal)
    (market : Market) (balance : Q) :
  (direction signal = YES -> quoted_probability market == 0 ->
   calculate_bet_size self signal market balance = ZeroDivisionError)
  /\ (direction signal = NO -> quoted_probability market == 1 ->
      calculate_bet_size self signal market balance = ZeroDivisionError)
  /\ (0 < quoted_probability market < 1 ->
      exists r, calculate_bet_size self signal market balance = Ok r).
Proof.
  unfold calculate_bet_size. fold (quoted_probability market).
  set (m := quoted_probability market).
  repeat split.
  - intros Hd Hm. rewrite directional_odds_raises; [reflexivity|].
    unfold odds_divisor. now rewrite Hd.
  - intros Hd Hm. rewrite directional_odds_raises; [reflexivity|].
    unfold odds_divisor. rewrite Hd. lra.
  - intros [H0 H1].
    destruct (directional_odds_Ok signal m) as (o & Ho & _).
    { unfold odds_divisor. destruct (direction signal); lra. }
    rewrite Ho. simpl. split_cmp; [eauto|]. reflect_cmp.
    destruct (kelly_positive signal m o H0 H1 Ho) as (k & Hk & _).
    { pose proof (directional_odds_edge _ _ _ Ho). lra. }
    rewrite Hk. simpl. split_cmp; eauto.
Qed.

Lemma C10_total_between_0_and_1_witness :
  calculate_bet_size default_manager (test_signal 0.70 0.80 YES) (market_at 0) 1000
  = ZeroDivisionError
  /\ calculate_bet_size default_manager (test_signal 0.30 0.80 NO) (market_at 1) 1000
     = ZeroDivisionError
  /\ exists r, calculate_bet_size default_manager (test_signal 0.70 0.80 YES)
                 (market_at 0.50) 1000 = Ok r.
Proof.
  split; [|split].
  - apply (proj1 (C10_total_between_0_and_1 default_manager
                    (test_signal 0.70 0.80 YES) (market_at 0) 1000));
      vm_compute; reflexivity.
  - apply (proj1 (proj2 (C10_total_between_0_and_1 default_manager
                           (test_signal 0.30 0.80 NO) (market_at 1) 1000)));
      vm_compute; reflexivity.
  - apply (proj2 (proj2 (C10_total_between_0_and_1 default_manager
                           (test_signal 0.70 0.80 YES) (market_at 0.50) 1000))).
    split; vm_compute; reflexivity.
Defined.

(* ===================================================================== *)
(** ** Risk sizing: limits, portfolio ceiling and rounding *)
(* ===================================================================== *)

(** Once the edge and Kelly checks have passed, the result is the clamped,
    confidence-scaled Kelly bet fitted to the portfolio. *)
Lemma calculate_bet_size_sized (self : RiskManager) (signal : StrategySignal)
    (market : Market) (balance : Q) (o : Odds) (k : Q) :
  directional_odds signal (quoted_probability market) = Ok o ->
  0.05 <= edge o ->
  kelly_full o = Ok k ->
  0 < k ->
  calculate_bet_size self signal market balance
  = Ok (fit_portfolio self
          (apply_limits self (k * kelly_fraction self * balance * confidence signal))
          balance).
Proof.
  intros Ho He Hk Hpos. unfold calculate_bet_size.
  fold (quoted_probability market). rewrite Ho. simpl.
  apply Qlt_bool_false in He. rewrite He. rewrite Hk. simpl.
  apply Qle_bool_false in Hpos. now rewrite Hpos.
Qed.

Lemma calculate_bet_size_Some (self : RiskManager) (signal : StrategySignal)
    (market : Market) (balance b : Q) :
  calculate_bet_size self signal market balance = Ok (Some b) ->
  exists c, fit_portfolio self (apply_limits self c) balance = Some b.
Proof.
  unfold calculate_bet_size.
  destruct (directional_odds signal _) as [o|]; simpl; [|discriminate].
  split_cmp; [discriminate|].
  destruct (kelly_full o) as [k|]; simpl; [|discriminate].
  split_cmp; [discriminate|].
  intros [= H]. eauto.
Qed.

Lemma apply_limits_bounds (self : RiskManager) (c : Q) :
  min_bet_amount self <= max_bet_amount self ->
  min_bet_amount self <= apply_limits self c <= max_bet_amount self.
Proof.
  intros H. unfold apply_limits. split; [apply py_max_ge_l|].
  apply py_max_lub; [exact H | apply py_min_le_l].
Qed.


(** An accepted amount is the rounding of a value between the floor and
    the clamped bet. *)
Lemma fit_portfolio_Some (self : RiskManager) (bet balance b : Q) :
  fit_portfolio self bet balance = Some b ->
  exists f, min_bet_amount self <= f /\ f <= bet /\ b = py_round f 2.
Proof.
  unfold fit_portfolio.
  destruct (negb (_check_portfolio_risk self bet balance)).
  - split_cmp; [discriminate|]. reflect_cmp. intros [= <-].
    eexists; repeat split; [exact E | apply py_min_le_l].
  - split_cmp; [discriminate|]. reflect_cmp. intros [= <-].
    eexists; repeat split; [exact E | lra].
Qed.


(** Over the ceiling, the clamped bet is replaced by the room that is left. *)
Lemma fit_portfolio_over_ceiling (self : RiskManager) (bet balance : Q) :
  max_portfolio_risk self * balance < _get_current_risk self + bet ->
  fit_portfolio self bet balance = shrink_to_room self balance.
Proof.
  intros H. unfold fit_portfolio, shrink_to_room, portfolio_room,
    _check_portfolio_risk.
  apply Qle_bool_false in H. rewrite H. simpl.
  apply Qle_bool_false in H.
  assert (Hroom : Qlt_bool (max_portfolio_risk self * balance - _get_current_risk self)
                    bet = true) by (apply Qlt_bool_true; lra).
  unfold py_min. now rewrite Hroom.
Qed.

Lemma shrink_to_room_as_specified (self : RiskManager) (balance : Q) :
  0 < min_bet_amount self ->
  shrink_to_room self balance = shrink_as_specified self balance.
Proof.
  intros Hmin. unfold shrink_to_room, shrink_as_specified, py_max.
  destruct (Qlt_bool 0 (portfolio_room self balance)) eqn:E0; [reflexivity|].
  reflect_cmp.
  assert (E1 : Qlt_bool (portfolio_room self balance) (min_bet_amount self) = true)
    by (apply Qlt_bool_true; lra).
  assert (E2 : Qlt_bool 0 (min_bet_amount self) = true)
    by (apply Qlt_bool_true; lra).
  now rewrite E1, E2.
Qed.

(** C4, amended: when the clamped bet plus the open exposure exceeds
    [max_portfolio_risk * balance], the bet becomes the room left under the
    ceiling, [max_portfolio_risk * balance - exposure] (not floored at 0); it
    is returned, rounded, if it is at least [min_bet_amount] and the result is
    [None] otherwise.  For a positive [min_bet_amount] this is the same
    result as shrinking to [max(0, room)].  With exposure 280, balance 1000,
    ceiling 0.30 and raw bet 80 the result is 20; with exposure 295 it is
    [None]. *)
Theorem C4_ceiling_shrinks_to_room :
  (forall (self : RiskManager) (signal : StrategySignal) (market : Market)
          (balance : Q) (o : Odds) (k : Q),
     directional_odds signal (quoted_probability market) = Ok o ->
     0.05 <= edge o ->
     kelly_full o = Ok k ->
     0 < k ->
     max_portfolio_risk self * balance
       < _get_current_risk self
         + apply_limits self (k * kelly_fraction self * balance * confidence signal) ->
     calculate_bet_size self signal market balance = Ok (shrink_to_room self balance)
     /\ (0 < min_bet_amount self ->
         calculate_bet_size self signal market balance
         = Ok (shrink_as_specified self balance)))
  /\ calculate_bet_size (manager_with_exposure 280) (test_signal 0.70 0.80 YES)
       (market_at 0.50) 1000 = Ok (Some 20)
  /\ calculate_bet_size (manager_with_exposure 295) (test_signal 0.70 0.80 YES)
       (market_at 0.50) 1000 = Ok None.
Proof.
  split; [|split; vm_compute; reflexivity].
  intros self signal market balance o k Ho He Hk Hpos Hover.
  rewrite (calculate_bet_size_sized self signal market balance o k Ho He Hk Hpos).
  rewrite (fit_portfolio_over_ceiling _ _ _ Hover).
  split; [reflexivity|].
  intros Hmin. now rewrite shrink_to_room_as_specified.
Qed.

Lemma C4_ceiling_shrinks_to_room_witness :
  calculate_bet_size (manager_with_exposure 280) (test_signal 0.70 0.80 YES)
    (market_at 0.50) 1000
  = Ok (shrink_to_room (manager_with_exposure 280) 1000).
Proof.
  refine (proj1 (proj1 C4_ceiling_shrinks_to_room _ _ _ _ _ _ _ _ _ _ _)).
  - reflexivity.
  - vm_compute. intros H. discriminate H.
  - reflexivity.
  - vm_compute. reflexivity.
  - vm_compute. reflexivity.
Defined.

(** C4 as stated fails for a floor of 0: with exposure 350 over a ceiling of
    300 the room is -50, the source rejects, while shrinking to
    [max(0, -50) = 0] would return the amount 0. *)
Lemma C4_counterexample :
  let self := add_position (Risk.init None (Some 0) None None None)
                {| market_id := Some "market1"; amount := Some 350 |} in
  calculate_bet_size self (test_signal 0.70 0.80 YES) (market_at 0.50) 1000 = Ok None
  /\ shrink_as_specified self 1000 = Some 0
  /\ calculate_bet_size self (test_signal 0.70 0.80 YES) (market_at 0.50) 1000
     <> Ok (shrink_as_specified self 1000).
Proof.
  cbv zeta. split; [vm_compute; reflexivity|].
  split; [vm_compute; reflexivity|].
  vm_compute. intros H. discriminate H.
Qed.

(** C5, amended: with [min_bet_amount <= max_bet_amount] the amount before
    rounding lies in [[min_bet_amount, max_bet_amount]]; the returned amount
    lies in that interval whenever both limits are two-decimal amounts
    (unchanged by [round(_, 2)]), as the integer limits of the configuration
    are. *)
Theorem C5_amount_within_limits (self : RiskManager) (signal : StrategySignal)
    (market : Market) (balance b : Q) :
  min_bet_amount self <= max_bet_amount self ->
  py_round (min_bet_amount self) 2 == min_bet_amount self ->
  py_round (max_bet_amount self) 2 == max_bet_amount self ->
  calculate_bet_size self signal market balance = Ok (Some b) ->
  min_bet_amount self <= b <= max_bet_amount self.
Proof.
  intros Hle Hmin Hmax Hcalc.
  destruct (calculate_bet_size_Some _ _ _ _ _ Hcalc) as (c & Hfit).
  destruct (fit_portfolio_Some _ _ _ _ Hfit) as (f & Hlo & Hhi & ->).
  destruct (apply_limits_bounds self c Hle) as [_ Hup].
  split.
  - rewrite <- Hmin. now apply py_round_mono.
  - rewrite <- Hmax. apply py_round_mono. lra.
Qed.

Lemma C5_amount_within_limits_witness :
  min_bet_amount default_manager <= 80 <= max_bet_amount default_manager.
Proof.
  apply (C5_amount_within_limits default_manager (test_signal 0.70 0.80 YES)
           (market_at 0.50) 1000 80).
  - vm_compute. intros H. discriminate H.
  - vm_compute. reflexivity.
  - vm_compute. reflexivity.
  - vm_compute. reflexivity.
Defined.

(** C5 as stated fails when a limit has more than two decimals: with
    [min_bet_amount = 10.004] (and [0 < 10.004 <= 100]) a clamped bet of
    10.004 is accepted and returned as [round(10.004, 2) = 10.0], below the
    floor. *)
Lemma C5_counterexample :
  let self := Risk.init (Some 100) (Some 10.004) None None None in
  0 < min_bet_amount self
  /\ min_bet_amount self <= max_bet_amount self
  /\ calculate_bet_size self (test_signal 0.70 0.10 YES) (market_at 0.50) 1000
     = Ok (Some 10)
  /\ ~ min_bet_amount self <= 10.
Proof.
  cbv zeta. split; [vm_compute; reflexivity|].
  split; [vm_compute; intros H; discriminate H|].
  split; [vm_compute; reflexivity|].
  vm_compute. intros H. apply H. reflexivity.
Qed.





(* ===================================================================== *)
(** ** Ensemble: sums over the weight map *)
(* ===================================================================== *)

Lemma sum_values_empty : sum_values ∅ = 0.
Proof. unfold sum_values. apply map_fold_empty. Qed.

Lemma sum_values_insert (m : gmap string Q) (i : string) (x : Q) :
  m !! i = None -> sum_values (<[i := x]> m) == sum_values m + x.
Proof.
  intros Hi. unfold sum_values.
  apply (map_fold_insert Qeq (fun _ v acc => acc + v)); [| |exact Hi].
  - intros j z a b Hab. now rewrite Hab.
  - intros. simpl. ring.
Qed.

Lemma sum_values_scale (m : gmap string Q) (t : Q) :
  sum_values ((fun v => v / t) <$> m) == sum_values m / t.
Proof.
  induction m as [|i x m Hi IH] using map_ind.
  - rewrite fmap_empty, sum_values_empty. unfold Qdiv. ring.
  - rewrite fmap_insert.
    rewrite !sum_values_insert by (rewrite ?lookup_fmap, ?Hi; reflexivity).
    rewrite IH. unfold Qdiv. ring.
Qed.

Lemma sum_values_nonneg (m : gmap string Q) :
  map_Forall (fun _ x => 0 <= x) m -> 0 <= sum_values m.
Proof.
  induction m as [|i x m Hi IH] using map_ind; intros Hall.
  - rewrite sum_values_empty. lra.
  - rewrite sum_values_insert by exact Hi.
    apply map_Forall_insert in Hall as [Hx Hm]; [|exact Hi].
    specialize (IH Hm). lra.
Qed.

Lemma sum_values_pos (m : gmap string Q) :
  m <> ∅ -> map_Forall (fun _ x => 0 < x) m -> 0 < sum_values m.
Proof.
  induction m as [|i x m Hi IH] using map_ind; intros Hne Hall; [congruence|].
  rewrite sum_values_insert by exact Hi.
  apply map_Forall_insert in Hall as [Hx Hm]; [|exact Hi].
  assert (0 <= sum_values m).
  { apply sum_values_nonneg. intros j y Hj. specialize (Hm j y Hj).
    simpl in Hm. lra. }
  lra.
Qed.

Lemma sum_values_normalized (m : gmap string Q) :
  0 < sum_values m ->
  sum_values ((fun v => v / sum_values m) <$> m) == 1.
Proof.
  intros Hpos. rewrite sum_values_scale. field. lra.
Qed.

Lemma exact_sums_to_one (m : gmap string Q) : sum_values m == 1 -> sums_to_one m.
Proof.
  intros H. unfold sums_to_one. rewrite H.
  vm_compute. intros E. discriminate E.
Qed.

(* ===================================================================== *)
(** ** Ensemble: weight normalisation and performance update *)
(* ===================================================================== *)

Lemma normalize_weights_sum (self : StrategyEnsemble) :
  0 < sum_values (weights self) ->
  sum_values (weights (_normalize_weights self)) == 1.
Proof.
  intros Hpos. unfold _normalize_weights. cbv zeta.
  apply Qlt_bool_true in Hpos as Hb. rewrite Hb. simpl.
  now apply sum_values_normalized.
Qed.

Lemma init_sum (strats : list BaseStrategy) (ws : gmap string Q) :
  0 < sum_values ws ->
  sum_values (weights (Ensemble.init strats (Some ws))) == 1.
Proof.
  intros Hpos. unfold Ensemble.init. cbv zeta. simpl default.
  destruct (decide (ws = ∅)) as [-> | Hne].
  - rewrite sum_values_empty in Hpos. lra.
  - now apply normalize_weights_sum.
Qed.

Lemma performance_score_floor (perf : gmap string Q) : 0.1 <= performance_score perf.
Proof.
  unfold performance_score. cbv zeta. split_cmp.
  - apply py_max_ge_l.
  - lra.
Qed.

Lemma performance_score_as_specified (perf : gmap string Q) :
  performance_score perf
  == score_as_specified (perf_get perf "win_rate") (perf_get perf "total_return")
       (perf_get perf "total_trades").
Proof.
  unfold performance_score, score_as_specified, py_max. cbv zeta.
  split_cmp; [|reflexivity].
  repeat (split_cmp; reflect_cmp); lra.
Qed.

Lemma performance_scores_lookup (self : StrategyEnsemble)
    (pd : gmap string (gmap string Q)) (n : string) :
  performance_scores self pd !! n
  = match strategies self !! n with
    | Some _ => performance_score <$> pd !! n
    | None => None
    end.
Proof.
  unfold performance_scores. rewrite lookup_fmap.
  destruct (strategies self !! n) as [b|] eqn:Hs.
  - destruct (pd !! n) as [perf|] eqn:Hp.
    + erewrite (proj2 (map_lookup_filter_Some _ pd n perf)); [reflexivity|].
      split; [exact Hp|]. simpl. rewrite Hs. eauto.
    + rewrite (proj2 (map_lookup_filter_None _ pd n)); [reflexivity|].
      now left.
  - rewrite (proj2 (map_lookup_filter_None _ pd n)); [reflexivity|].
    right. intros perf _ [b Hb]. simpl in Hb. congruence.
Qed.

Lemma performance_scores_positive (self : StrategyEnsemble)
    (pd : gmap string (gmap string Q)) :
  map_Forall (fun _ x => 0 < x) (performance_scores self pd).
Proof.
  intros n x Hn. rewrite performance_scores_lookup in Hn.
  destruct (strategies self !! n); [|discriminate].
  destruct (pd !! n) as [perf|]; simpl in Hn; [|discriminate].
  injection Hn as <-. pose proof (performance_score_floor perf). lra.
Qed.

(** Either no registered strategy is scored and nothing changes, or the
    weight map becomes the scores divided by their positive total. *)
Lemma update_weights_cases (self : StrategyEnsemble)
    (pd : gmap string (gmap string Q)) :
  (performance_scores self pd = ∅ /\ update_weights self pd = self)
  \/ (performance_scores self pd <> ∅
      /\ 0 < sum_values (performance_scores self pd)
      /\ update_weights self pd
         = {| strategies := strategies self;
              weights := (fun score => score / sum_values (performance_scores self pd))
                           <$> performance_scores self pd |}).
Proof.
  unfold update_weights. cbv zeta.
  destruct (decide (performance_scores self pd = ∅)) as [He | Hne]; [now left|].
  right. split; [exact Hne|].
  pose proof (sum_values_pos _ Hne (performance_scores_positive self pd)) as Hpos.
  split; [exact Hpos|].
  apply Qlt_bool_true in Hpos. now rewrite Hpos.
Qed.

Lemma update_weights_sum (self : StrategyEnsemble)
    (pd : gmap string (gmap string Q)) :
  sum_values (weights self) == 1 ->
  sum_values (weights (update_weights self pd)) == 1.
Proof.
  intros H.
  destruct (update_weights_cases self pd) as [[_ ->] | (_ & Hpos & ->)];
    [exact H|].
  simpl. now apply sum_values_normalized.
Qed.

Lemma updates_sum (updates : list (gmap string (gmap string Q)))
    (self : StrategyEnsemble) :
  sum_values (weights self) == 1 ->
  sum_values (weights (fold_left update_weights updates self)) == 1.
Proof.
  revert self. induction updates as [|pd updates IH]; intros self H; simpl.
  - exact H.
  - apply IH. now apply update_weights_sum.
Qed.

(** C2, amended: for a supplied weight map whose values have a positive sum,
    the weights sum to 1 (exactly, hence within 1e-9) after construction and
    after every later sequence of [update_weights] calls, whatever the
    performance mappings. *)
Theorem C2_weights_sum_to_one (strats : list BaseStrategy) (ws : gmap string Q)
    (updates : list (gmap string (gmap string Q))) :
  0 < sum_values ws ->
  sum_values (weights (fold_left update_weights updates
                         (Ensemble.init strats (Some ws)))) == 1
  /\ sums_to_one (weights (fold_left update_weights updates
                             (Ensemble.init strats (Some ws)))).
Proof.
  intros Hpos.
  assert (H : sum_values (weights (fold_left update_weights updates
                                     (Ensemble.init strats (Some ws)))) == 1)
    by (apply updates_sum, init_sum, Hpos).
  split; [exact H | now apply exact_sums_to_one].
Qed.

Lemma C2_weights_sum_to_one_witness :
  sum_values (weights (fold_left update_weights
                         [{[ "Contrarian" := performance 0.5 10 4 ]}]
                         (Ensemble.init two_strategies
                            (Some {[ "Momentum Trader" := 3; "Contrarian" := 2 ]}))))
  == 1
  /\ sums_to_one (weights (fold_left update_weights
                             [{[ "Contrarian" := performance 0.5 10 4 ]}]
                             (Ensemble.init two_strategies
                                (Some {[ "Momentum Trader" := 3; "Contrarian" := 2 ]})))).
Proof.
  apply C2_weights_sum_to_one. vm_compute. reflexivity.
Defined.

(** C2 as stated fails for a weight map whose total is not positive: the
    normalisation is skipped, and a map of zero weights keeps the sum 0. *)
Lemma C2_counterexample :
  sum_values (weights (Ensemble.init two_strategies
                         (Some {[ "Momentum Trader" := 0; "Contrarian" := 0 ]}))) == 0
  /\ ~ sums_to_one (weights (Ensemble.init two_strategies
                               (Some {[ "Momentum Trader" := 0; "Contrarian" := 0 ]}))).
Proof.
  split.
  - vm_compute. reflexivity.
  - unfold sums_to_one. vm_compute. intros H. apply H. reflexivity.
Qed.

(** C6, amended: for a performance mapping that has an entry for every
    registered estimator (the Combiner having at least one), the update gives
    each registered estimator the weight [score / total], where the score is
    [0.6 * win_rate + 0.4 * (total_return / total_trades)] floored at 0.1
    when [total_trades > 0] and 0.5 otherwise; the new weights sum to 1, each
    of them is positive, and the set of registered estimators is unchanged. *)
Theorem C6_update_weights_scores (self : StrategyEnsemble)
    (pd : gmap string (gmap string Q)) :
  strategies self <> ∅ ->
  map_Forall (fun n _ => is_Some (pd !! n)) (strategies self) ->
  sum_values (weights (update_weights self pd)) == 1
  /\ strategies (update_weights self pd) = strategies self
  /\ forall n, is_Some (strategies self !! n) ->
       exists perf w,
         pd !! n = Some perf
         /\ weights (update_weights self pd) !! n = Some w
         /\ 0 < w
         /\ w == score_as_specified (perf_get perf "win_rate")
                   (perf_get perf "total_return") (perf_get perf "total_trades")
                 / sum_values (performance_scores self pd).
Proof.
  intros Hne Hcover.
  assert (Hscored : forall n, is_Some (strategies self !! n) ->
            exists perf, pd !! n = Some perf
              /\ performance_scores self pd !! n = Some (performance_score perf)).
  { intros n [b Hb]. destruct (Hcover n b Hb) as [perf Hp].
    exists perf. split; [exact Hp|].
    rewrite performance_scores_lookup, Hb, Hp. reflexivity. }
  destruct (update_weights_cases self pd) as [[He _] | (_ & Hpos & ->)].
  - exfalso. apply map_choose in Hne as (n & b & Hb).
    destruct (Hscored n) as (perf & _ & Hs); [eauto|].
    rewrite He, lookup_empty in Hs. discriminate.
  - simpl. split; [now apply sum_values_normalized|]. split; [reflexivity|].
    intros n Hn. destruct (Hscored n Hn) as (perf & Hp & Hs).
    exists perf. eexists. split; [exact Hp|].
    split; [rewrite lookup_fmap, Hs; reflexivity|].
    pose proof (performance_score_floor perf) as Hfloor.
    split.
    + apply Qlt_shift_div_l; lra.
    + now rewrite performance_score_as_specified.
Qed.

Lemma C6_update_weights_scores_witness :
  sum_values (weights (update_weights (Ensemble.init two_strategies None)
                         {[ "Momentum Trader" := performance 0.5 10 4;
                            "Contrarian" := performance 0 0 0 ]})) == 1.
Proof.
  apply C6_update_weights_scores.
  - apply (bool_decide_unpack _). vm_compute. exact I.
  - apply (bool_decide_unpack _). vm_compute. exact I.
Defined.

(** C6 as stated fails for a performance mapping that leaves a registered
    estimator out: the weight map is rebuilt from the scored names only, so
    the estimator that had a positive weight has none afterwards. *)
Lemma C6_counterexample :
  is_Some (strategies (Ensemble.init two_strategies None) !! "Contrarian")
  /\ (exists w, weights (Ensemble.init two_strategies None) !! "Contrarian" = Some w
                /\ 0 < w)
  /\ weights (update_weights (Ensemble.init two_strategies None)
                {[ "Momentum Trader" := performance 0.5 10 4 ]}) !! "Contrarian"
     = None.
Proof.
  split; [vm_compute; eauto|].
  split; [|vm_compute; reflexivity].
  eexists. split; [vm_compute; reflexivity|]. vm_compute. reflexivity.
Qed.

(* ===================================================================== *)
(** ** Ensemble: the voting loop and the consensus *)
(* ===================================================================== *)

Lemma mass_cons (d : Direction) (self : StrategyEnsemble)
    (item : string * StrategySignal) (signals : list (string * StrategySignal)) :
  mass d self (item :: signals)
  == (if decide (direction (snd item) = d) then effective_weight self item else 0)
     + mass d self signals.
Proof.
  unfold mass. rewrite filter_cons.
  destruct (decide (direction (snd item) = d)); simpl; ring.
Qed.

(** The accumulators after the loop are the sums the specification names. *)
Lemma tally_sums (self : StrategyEnsemble) (signals : list (string * StrategySignal))
    (t : Tally) :
  total_weight (fold_left (vote self) signals t)
    == total_weight t + total_effective_weight self signals
  /\ weighted_prob (fold_left (vote self) signals t)
     == weighted_prob t + weighted_sum probability self signals
  /\ weighted_confidence (fold_left (vote self) signals t)
     == weighted_confidence t + weighted_sum confidence self signals
  /\ yes_votes (fold_left (vote self) signals t)
     == yes_votes t + mass YES self signals
  /\ no_votes (fold_left (vote self) signals t)
     == no_votes t + mass NO self signals.
Proof.
  revert t. induction signals as [|item signals IH]; intros t.
  - unfold total_effective_weight, weighted_sum, mass. simpl.
    repeat split; ring.
  - destruct (IH (vote self t item)) as (H1 & H2 & H3 & H4 & H5).
    simpl fold_left. rewrite H1, H2, H3, H4, H5. rewrite !mass_cons.
    unfold total_effective_weight, weighted_sum, effective_weight. simpl.
    destruct (direction (snd item)); simpl; repeat split; ring.
Qed.

Lemma loop_total_weight (self : StrategyEnsemble)
    (signals : list (string * StrategySignal)) :
  total_weight (fold_left (vote self) signals tally0)
  == total_effective_weight self signals.
Proof.
  destruct (tally_sums self signals tally0) as (H & _). rewrite H. simpl. ring.
Qed.

Lemma zero_confidence_total (self : StrategyEnsemble)
    (signals : list (string * StrategySignal)) :
  Forall (fun item => confidence (snd item) == 0) signals ->
  total_effective_weight self signals == 0.
Proof.
  unfold total_effective_weight, effective_weight.
  induction 1 as [|item signals Hc _ IH]; simpl; [reflexivity|].
  rewrite IH, Hc. ring.
Qed.

(** C3: for a non-empty signal mapping with non-zero total effective weight
    the consensus has the weighted mean probability and confidence, direction
    YES exactly when the YES mass strictly exceeds the NO mass (a tie gives
    NO), and strength [|yes_mass - no_mass| / total_weight]. *)
Theorem C3_consensus_formulas (format_0f format_1pct : Q -> string)
    (self : StrategyEnsemble) (signals : list (string * StrategySignal)) :
  signals <> [] ->
  ~ total_effective_weight self signals == 0 ->
  exists c,
    _combine_signals format_0f format_1pct self signals = Some c
    /\ probability c
       == weighted_sum probability self signals / total_effective_weight self signals
    /\ confidence c
       == weighted_sum confidence self signals / total_effective_weight self signals
    /\ (direction c = YES <-> mass NO self signals < mass YES self signals)
    /\ (mass YES self signals == mass NO self signals -> direction c = NO)
    /\ strength c
       == Qabs (mass YES self signals - mass NO self signals)
          / total_effective_weight self signals.
Proof.
  intros Hne Htotal.
  destruct (tally_sums self signals tally0) as (H1 & H2 & H3 & H4 & H5).
  simpl in H1, H2, H3, H4, H5.
  rewrite Qplus_0_l in H1, H2, H3, H4, H5.
  unfold _combine_signals.
  destruct signals as [|item rest]; [congruence|].
  set (signals := item :: rest) in *.
  set (t := fold_left (vote self) signals tally0) in *.
  assert (Hz : Qeq_bool (total_weight t) 0 = false).
  { apply Qeq_bool_false. now rewrite H1. }
  rewrite Hz. eexists. split; [reflexivity|].
  cbn [probability confidence direction strength].
  split; [now rewrite H1, H2|]. split; [now rewrite H1, H3|].
  split; [|split].
  - destruct (Qlt_bool (no_votes t) (yes_votes t)) eqn:E; reflect_cmp;
      split; intros H; try reflexivity; try discriminate; lra.
  - intros Htie.
    destruct (Qlt_bool (no_votes t) (yes_votes t)) eqn:E; reflect_cmp;
      [lra | reflexivity].
  - now rewrite H1, H4, H5.
Qed.

Lemma C3_consensus_formulas_witness :
  exists c,
    _combine_signals no_format no_format (Ensemble.init two_strategies None)
      [("Momentum Trader", test_signal 0.70 0.80 YES);
       ("Contrarian", test_signal 0.40 0.80 NO)] = Some c
    /\ direction c = NO
    /\ strength c == 0.
Proof.
  destruct (C3_consensus_formulas no_format no_format
              (Ensemble.init two_strategies None)
              [("Momentum Trader", test_signal 0.70 0.80 YES);
               ("Contrarian", test_signal 0.40 0.80 NO)])
    as (c & Hc & _ & _ & _ & Htie & Hs).
  - discriminate.
  - vm_compute. intros H. discriminate H.
  - exists c. split; [exact Hc|]. split.
    + apply Htie. vm_compute. reflexivity.
    + rewrite Hs. vm_compute. reflexivity.
Defined.

(** C8: the consensus is [None] exactly when the signal mapping is empty or
    the total effective weight is zero; in particular for the empty mapping
    and for signals that all have confidence zero; every other input gives a
    consensus signal. *)
Theorem C8_no_consensus_iff (format_0f format_1pct : Q -> string)
    (self : StrategyEnsemble) (signals : list (string * StrategySignal)) :
  (_combine_signals format_0f format_1pct self signals = None
   <-> signals = [] \/ total_effective_weight self signals == 0)
  /\ _combine_signals format_0f format_1pct self [] = None
  /\ (Forall (fun item => confidence (snd item) == 0) signals ->
      _combine_signals format_0f format_1pct self signals = None)
  /\ (signals <> [] -> ~ total_effective_weight self signals == 0 ->
      is_Some (_combine_signals format_0f format_1pct self signals)).
Proof.
  assert (Hiff : _combine_signals format_0f format_1pct self signals = None
                 <-> signals = [] \/ total_effective_weight self signals == 0).
  { pose proof (loop_total_weight self signals) as Ht.
    unfold _combine_signals. destruct signals as [|item rest].
    - split; auto.
    - destruct (Qeq_bool (total_weight (fold_left (vote self) (item :: rest) tally0)) 0)
        eqn:E; reflect_cmp.
      + split; [intros _; right; now rewrite <- Ht | reflexivity].
      + split; [discriminate|]. intros [H | H]; [discriminate|].
        rewrite Ht in E. contradiction. }
  split; [exact Hiff|]. split; [reflexivity|]. split.
  - intros Hzero. apply Hiff. right. now apply zero_confidence_total.
  - intros Hne Htotal.
    destruct (_combine_signals format_0f format_1pct self signals) eqn:E; [eauto|].
    destruct (proj1 Hiff eq_refl); contradiction.
Qed.

Lemma C8_no_consensus_iff_witness :
  _combine_signals no_format no_format (Ensemble.init two_strategies None)
    [("Momentum Trader", test_signal 0.70 0 YES);
     ("Contrarian", test_signal 0.40 0 NO)] = None.
Proof.
  apply (proj1 (proj2 (proj2 (C8_no_consensus_iff no_format no_format
                                (Ensemble.init two_strategies None) _)))).
  repeat constructor.
Defined.

(* ===================================================================== *)
(** ** Position ledger *)
(* ===================================================================== *)

Lemma fold_left_Qplus (xs : list Q) (a : Q) : fold_left Qplus xs a == a + Qsum xs.
Proof.
  revert a. induction xs as [|x xs IH]; intros a; simpl.
  - ring.
  - rewrite IH. ring.
Qed.

Lemma py_sum_Qsum (xs : list Q) : py_sum xs == Qsum xs.
Proof. unfold py_sum. rewrite fold_left_Qplus. ring. Qed.

Lemma Qsum_app (xs ys : list Q) : Qsum (xs ++ ys) == Qsum xs + Qsum ys.
Proof.
  induction xs as [|x xs IH]; simpl.
  - ring.
  - rewrite IH. ring.
Qed.

(** X1: recording a position raises the current risk by its amount; an entry
    without an ['amount'] key counts for 0. *)
Theorem X1_add_position_risk (self : RiskManager) (position : Position) :
  _get_current_risk (add_position self position)
  == _get_current_risk self + default 0 (amount position).
Proof.
  unfold _get_current_risk, add_position. simpl.
  rewrite !py_sum_Qsum, map_app, Qsum_app. simpl. ring.
Qed.

(** X2: closing a market removes every entry recorded for it, also repeated
    ones, and lowers the current risk by exactly what was staked on it. *)
Theorem X2_remove_position_risk (self : RiskManager) (closed_id : string) :
  Forall (fun pos => market_id pos <> Some closed_id)
         (open_positions (remove_position self closed_id))
  /\ _get_current_risk self
     == _get_current_risk (remove_position self closed_id) + staked_on self closed_id.
Proof.
  split.
  - unfold remove_position. simpl. apply Forall_forall. intros pos Hin.
    apply list_elem_of_filter in Hin. tauto.
  - unfold _get_current_risk, staked_on, remove_position. simpl.
    rewrite !py_sum_Qsum.
    induction (open_positions self) as [|pos l IH]; simpl; [ring|].
    rewrite !filter_cons.
    destruct (decide (market_id pos <> Some closed_id)) as [Hne | Heq];
      destruct (decide (market_id pos = Some closed_id)) as [He | Hn];
      simpl; try contradiction; rewrite IH; ring.
Qed.

(** X3: a position recorded for a market that had none and then closed
    leaves the risk manager exactly as it was. *)
Theorem X3_add_then_remove (self : RiskManager) (new_id : string) (a : option Q) :
  Forall (fun pos => market_id pos <> Some new_id) (open_positions self) ->
  remove_position (add_position self {| market_id := Some new_id; amount := a |}) new_id
  = self.
Proof.
  intros Hfresh. unfold remove_position, add_position. destruct self as [mx mn kf mr rt ps].
  simpl in *. f_equal. rewrite filter_app.
  rewrite filter_cons. simpl.
  destruct (decide (Some new_id <> Some new_id)) as [Hne | _]; [congruence|].
  rewrite filter_nil, app_nil_r.
  induction Hfresh as [|pos l Hpos _ IH]; [reflexivity|].
  rewrite filter_cons. destruct (decide (market_id pos <> Some new_id)); [|contradiction].
  now rewrite IH.
Qed.

Lemma X3_add_then_remove_witness :
  remove_position
    (add_position (manager_with_exposure 280)
       {| market_id := Some "market2"; amount := Some 50 |}) "market2"
  = manager_with_exposure 280.
Proof.
  apply X3_add_then_remove. repeat constructor. simpl. intros H. discriminate H.
Defined.

(* ===================================================================== *)
(** ** Sizing: rounding, the ceiling and the floor *)
(* ===================================================================== *)

Lemma round_half_even_error (x : Q) :
  inject_Z (round_half_even x) - x <= 1 # 2
  /\ x - inject_Z (round_half_even x) <= 1 # 2.
Proof.
  unfold round_half_even.
  pose proof (Qfloor_le x) as H0. pose proof (Qlt_floor x) as H1.
  rewrite inject_Z_plus in H1. change (inject_Z 1) with 1 in H1.
  set (f := Qfloor x) in *. cbv zeta.
  repeat (split_cmp; reflect_cmp);
    try (destruct (Z.even f));
    rewrite ?inject_Z_plus; change (inject_Z 1) with 1; split; lra.
Qed.

Lemma py_round_2_cents (x : Q) :
  py_round x 2 == inject_Z (round_half_even (x * 100)) / 100.
Proof.
  unfold py_round. cbv zeta. rewrite Qred_correct.
  change (10 ^ Z.of_nat 2)%Z with 100%Z.
  change (Z.to_pos 100) with 100%positive.
  change (inject_Z 100) with 100.
  rewrite (Qmake_Qdiv (round_half_even (x * 100)) 100).
  reflexivity.
Qed.

Lemma py_round_2_error (x : Q) :
  py_round x 2 - x <= 1 # 200 /\ x - py_round x 2 <= 1 # 200.
Proof.
  rewrite py_round_2_cents.
  destruct (round_half_even_error (x * 100)) as [Hup Hdown].
  set (z := inject_Z (round_half_even (x * 100))) in *.
  assert (E : z / 100 == z * (1 # 100)) by (field).
  rewrite E. split; lra.
Qed.

(** An accepted amount is the rounding of a value that is at least the floor,
    at most the clamped bet, and fits under the portfolio ceiling. *)
Lemma fit_portfolio_room (self : RiskManager) (bet balance b : Q) :
  fit_portfolio self bet balance = Some b ->
  exists f, b = py_round f 2
            /\ min_bet_amount self <= f
            /\ f <= bet
            /\ _get_current_risk self + f <= max_portfolio_risk self * balance.
Proof.
  unfold fit_portfolio, _check_portfolio_risk. cbv zeta.
  destruct (Qle_bool _ _) eqn:Ec; simpl; reflect_cmp.
  - split_cmp; [discriminate|]. reflect_cmp. intros [= <-].
    eexists. repeat split; [exact E | lra | exact Ec].
  - split_cmp; [discriminate|]. reflect_cmp. intros [= <-].
    eexists. split; [reflexivity|]. split; [exact E|].
    split; [apply py_min_le_l|].
    pose proof (py_min_le_r bet
                  (max_portfolio_risk self * balance - _get_current_risk self)).
    lra.
Qed.

(** X6: once the exposure has reached [max_portfolio_risk * balance], a
    positive [min_bet_amount] makes every sizing call decline: no signal, no
    market and no confidence yields an amount.  In particular nothing is bet
    from a balance that is zero or negative while the exposure and the
    ceiling fraction are not negative. *)
Theorem X6_no_bet_at_ceiling (self : RiskManager) (signal : StrategySignal)
    (market : Market) (balance b : Q) :
  max_portfolio_risk self * balance <= _get_current_risk self ->
  0 < min_bet_amount self ->
  calculate_bet_size self signal market balance <> Ok (Some b).
Proof.
  intros Hfull Hmin Hcalc.
  destruct (calculate_bet_size_Some _ _ _ _ _ Hcalc) as (c & Hfit).
  destruct (fit_portfolio_room _ _ _ _ Hfit) as (f & _ & Hlo & _ & Hroom).
  lra.
Qed.

Lemma X6_no_bet_at_ceiling_witness :
  calculate_bet_size (manager_with_exposure 300) (test_signal 0.70 0.80 YES)
    (market_at 0.50) 1000 <> Ok (Some 10).
Proof.
  apply X6_no_bet_at_ceiling.
  - vm_compute. intros H. discriminate H.
  - vm_compute. reflexivity.
Defined.

(** X7: an amount that is returned keeps the exposure within the portfolio
    ceiling up to the rounding of the last step: exposure plus amount is at
    most [max_portfolio_risk * balance + 0.005], and the amount is at least
    [min_bet_amount - 0.005]. *)
Theorem X7_amount_fits_ceiling (self : RiskManager) (signal : StrategySignal)
    (market : Market) (balance b : Q) :
  calculate_bet_size self signal market balance = Ok (Some b) ->
  _get_current_risk self + b <= max_portfolio_risk self * balance + 0.005
  /\ min_bet_amount self - 0.005 <= b.
Proof.
  intros Hcalc.
  destruct (calculate_bet_size_Some _ _ _ _ _ Hcalc) as (c & Hfit).
  destruct (fit_portfolio_room _ _ _ _ Hfit) as (f & -> & Hlo & _ & Hroom).
  destruct (py_round_2_error f) as [Hup Hdown].
  split; lra.
Qed.

Lemma X7_amount_fits_ceiling_witness :
  _get_current_risk (manager_with_exposure 280) + 20
    <= max_portfolio_risk (manager_with_exposure 280) * 1000 + 0.005
  /\ min_bet_amount (manager_with_exposure 280) - 0.005 <= 20.
Proof.
  apply (X7_amount_fits_ceiling (manager_with_exposure 280)
           (test_signal 0.70 0.80 YES) (market_at 0.50) 1000 20).
  vm_compute. reflexivity.
Defined.

(** X8: every returned amount is a whole number of hundredths. *)
Theorem X8_amount_in_cents (self : RiskManager) (signal : StrategySignal)
    (market : Market) (balance b : Q) :
  calculate_bet_size self signal market balance = Ok (Some b) ->
  exists cents : Z, b == inject_Z cents / 100.
Proof.
  intros Hcalc.
  destruct (calculate_bet_size_Some _ _ _ _ _ Hcalc) as (c & Hfit).
  destruct (fit_portfolio_Some _ _ _ _ Hfit) as (f & _ & _ & ->).
  eexists. apply py_round_2_cents.
Qed.

Lemma X8_amount_in_cents_witness :
  exists cents : Z, 80 == inject_Z cents / 100.
Proof.
  apply (X8_amount_in_cents default_manager (test_signal 0.70 0.80 YES)
           (market_at 0.50) 1000 80).
  vm_compute. reflexivity.
Defined.

(** X9: the floor is a clamp, not a rejection of small bets: when the edge
    and Kelly checks pass and the confidence-scaled bet is at or below
    [min_bet_amount], the bet is raised to [min_bet_amount] and returned
    (rounded) as long as it fits under the portfolio ceiling.  A signal of
    confidence 0 is sized at the floor. *)
Theorem X9_small_bet_raised_to_floor (self : RiskManager) (signal : StrategySignal)
    (market : Market) (balance : Q) (o : Odds) (k : Q) :
  directional_odds signal (quoted_probability market) = Ok o ->
  0.05 <= edge o ->
  kelly_full o = Ok k ->
  0 < k ->
  k * kelly_fraction self * balance * confidence signal <= min_bet_amount self ->
  min_bet_amount self <= max_bet_amount self ->
  _get_current_risk self + min_bet_amount self <= max_portfolio_risk self * balance ->
  calculate_bet_size self signal market balance
  = Ok (Some (py_round (min_bet_amount self) 2)).
Proof.
  intros Ho He Hk Hpos Hsmall Hle Hroom.
  rewrite (calculate_bet_size_sized self signal market balance o k Ho He Hk Hpos).
  assert (Hclamp : apply_limits self
                     (k * kelly_fraction self * balance * confidence signal)
                   = min_bet_amount self).
  { unfold apply_limits, py_max, py_min.
    repeat (split_cmp; reflect_cmp); try reflexivity; lra. }
  rewrite Hclamp. unfold fit_portfolio, _check_portfolio_risk. cbv zeta.
  apply Qle_bool_iff in Hroom. rewrite Hroom. simpl.
  assert (Hself : Qlt_bool (min_bet_amount self) (min_bet_amount self) = false)
    by (apply Qlt_bool_false; lra).
  now rewrite Hself.
Qed.

Lemma X9_small_bet_raised_to_floor_witness :
  calculate_bet_size default_manager (test_signal 0.70 0 YES) (market_at 0.50) 1000
  = Ok (Some (py_round (min_bet_amount default_manager) 2)).
Proof.
  eapply X9_small_bet_raised_to_floor.
  - reflexivity.
  - vm_compute. intros H. discriminate H.
  - reflexivity.
  - vm_compute. reflexivity.
  - vm_compute. intros H. discriminate H.
  - vm_compute. intros H. discriminate H.
  - vm_compute. intros H. discriminate H.
Defined.

(* ===================================================================== *)
(** ** Sizing: the two sides of a market *)
(* ===================================================================== *)

Lemma Qlt_bool_comp (x x' y y' : Q) :
  x == x' -> y == y' -> Qlt_bool x y = Qlt_bool x' y'.
Proof. intros Hx Hy. unfold Qlt_bool. now rewrite Hx, Hy. Qed.

Lemma round_half_even_comp (x y : Q) : x == y -> round_half_even x = round_half_even y.
Proof.
  intros H. unfold round_half_even. rewrite (Qfloor_comp x y H).
  set (f := Qfloor y).
  rewrite (Qlt_bool_comp (x - inject_Z f) (y - inject_Z f) (1 # 2) (1 # 2))
    by (rewrite ?H; reflexivity).
  rewrite (Qlt_bool_comp (1 # 2) (1 # 2) (x - inject_Z f) (y - inject_Z f))
    by (rewrite ?H; reflexivity).
  reflexivity.
Qed.

Lemma py_round_comp (x y : Q) (n : nat) : x == y -> py_round x n = py_round y n.
Proof.
  intros H. unfold py_round. cbv zeta.
  rewrite (round_half_even_comp (x * inject_Z (10 ^ Z.of_nat n))
             (y * inject_Z (10 ^ Z.of_nat n))) by (now rewrite H).
  reflexivity.
Qed.

Lemma apply_limits_comp (self : RiskManager) (c c' : Q) :
  c == c' -> apply_limits self c == apply_limits self c'.
Proof.
  intros H. unfold apply_limits, py_max, py_min.
  repeat (split_cmp; reflect_cmp); lra.
Qed.

Lemma fit_portfolio_comp (self : RiskManager) (bet bet' balance : Q) :
  bet == bet' -> fit_portfolio self bet balance = fit_portfolio self bet' balance.
Proof.
  intros H. unfold fit_portfolio, _check_portfolio_risk, py_min. cbv zeta.
  destruct (Qle_bool (_get_current_risk self + bet) _) eqn:E1;
    destruct (Qle_bool (_get_current_risk self + bet') _) eqn:E2; simpl;
    repeat (split_cmp; reflect_cmp; simpl); try reflexivity; try lra;
    f_equal; apply py_round_comp; lra.
Qed.

(** The payout computation of a mirrored signal on the mirrored market. *)
Lemma directional_odds_mirror (signal : StrategySignal) (m : Q) :
  odds_equiv (directional_odds (mirror_signal signal) (1 - m))
             (directional_odds signal m).
Proof.
  unfold directional_odds, mirror_signal, py_div. simpl.
  destruct (direction signal); simpl.
  - rewrite (Qeqb_comp (1 - (1 - m)) m ltac:(ring) 0 0 ltac:(reflexivity)).
    destruct (Qeq_bool m 0); simpl; [exact I|].
    repeat split; try ring. apply Qdiv_comp; ring.
  - destruct (Qeq_bool (1 - m) 0); simpl; [exact I|].
    repeat split; try ring. apply Qdiv_comp; ring.
Qed.

(** X10: sizing treats the two sides of a market alike: a signal and its
    mirror image (probability [1 - p], opposite direction) on the market
    quoted at [1 - m] get the same amount, the same refusal or the same
    division error. *)
Theorem X10_mirror_symmetry (self : RiskManager) (signal : StrategySignal)
    (market : Market) (balance : Q) :
  calculate_bet_size self (mirror_signal signal) (mirror_market market) balance
  = calculate_bet_size self signal market balance.
Proof.
  unfold calculate_bet_size. cbv zeta.
  change (default 0.5 (market_probability (mirror_market market)))
    with (1 - quoted_probability market).
  fold (quoted_probability market).
  pose proof (directional_odds_mirror signal (quoted_probability market)) as Hm.
  destruct (directional_odds (mirror_signal signal) _) as [o'|];
    destruct (directional_odds signal _) as [o|]; simpl in *;
    try contradiction; [|reflexivity].
  destruct Hm as (He & Hw & Hl & Ho).
  rewrite (Qlt_bool_comp (edge o') (edge o) 0.05 0.05 He ltac:(reflexivity)).
  destruct (Qlt_bool (edge o) 0.05); [reflexivity|].
  unfold kelly_full, py_div.
  rewrite (Qeqb_comp _ _ Ho 0 0 ltac:(reflexivity)).
  destruct (Qeq_bool (win_odds o) 0); simpl; [reflexivity|].
  assert (Hk : (win_prob o' * win_odds o' - lose_prob o') / win_odds o'
               == (win_prob o * win_odds o - lose_prob o) / win_odds o)
    by (now rewrite Hw, Hl, Ho).
  rewrite (Qleb_comp _ _ Hk 0 0 ltac:(reflexivity)).
  destruct (Qle_bool _ 0); [reflexivity|].
  f_equal. apply fit_portfolio_comp, apply_limits_comp.
  now rewrite Hk.
Qed.

(* ===================================================================== *)
(** ** Ensemble: construction, reweighting and the enabled flag *)
(* ===================================================================== *)

Lemma uniform_fold_lookup (c : Q) (strats : list BaseStrategy) (d : gmap string Q)
    (n : string) :
  fold_left (fun d s => <[name s := c]> d) strats d !! n
  = if decide (n ∈ name <$> strats) then Some c else d !! n.
Proof.
  revert d. induction strats as [|s strats IH]; intros d; cbn [fold_left].
  - rewrite fmap_nil. destruct (decide (n ∈ [])) as [Hin | _]; [|reflexivity].
    apply elem_of_nil in Hin. contradiction.
  - rewrite IH, lookup_insert, fmap_cons.
    destruct (decide (n ∈ name <$> strats)) as [Hin | Hout];
      destruct (decide (n ∈ name s :: (name <$> strats))) as [Hin' | Hout'];
      destruct (decide (name s = n)) as [He | Hne];
      try reflexivity; exfalso;
      rewrite elem_of_cons in *; intuition congruence.
Qed.

Lemma strategies_fold_lookup (strats : list BaseStrategy)
    (d : gmap string BaseStrategy) (n : string) :
  is_Some (fold_left (fun d s => <[name s := s]> d) strats d !! n)
  <-> n ∈ name <$> strats \/ is_Some (d !! n).
Proof.
  revert d. induction strats as [|s strats IH]; intros d; cbn [fold_left].
  - rewrite fmap_nil.
    split; [auto | intros [H | H]; [apply elem_of_nil in H; contradiction | exact H]].
  - rewrite IH, lookup_insert, fmap_cons, elem_of_cons.
    destruct (decide (name s = n)) as [<- | Hne].
    + split; [auto | eauto].
    + split; [intros [H | H]; auto | intros [[H | H] | H]; auto; congruence].
Qed.

Lemma sum_values_const (m : gmap string Q) (c : Q) :
  (forall i x, m !! i = Some x -> x == c) ->
  sum_values m == c * inject_Z (Z.of_nat (size m)).
Proof.
  induction m as [|i x m Hi IH] using map_ind; intros Hall.
  - rewrite sum_values_empty, map_size_empty. simpl. ring.
  - rewrite sum_values_insert by exact Hi.
    rewrite (map_size_insert_None i x m Hi), Nat2Z.inj_succ.
    unfold Z.succ. rewrite inject_Z_plus.
    rewrite (Hall i x) by apply lookup_insert_eq.
    rewrite IH; [change (inject_Z 1) with 1; ring|].
    intros j y Hj. apply (Hall j y).
    rewrite lookup_insert_ne; [exact Hj|]. intros ->. congruence.
Qed.

(** Dividing a non-empty map of equal positive values by its sum gives
    every key the share [1 / size]. *)
Lemma equal_shares (m : gmap string Q) (c : Q) (i : string) (w : Q) :
  0 < c ->
  (forall j x, m !! j = Some x -> x == c) ->
  ((fun v => v / sum_values m) <$> m) !! i = Some w ->
  w == 1 / inject_Z (Z.of_nat (size m)).
Proof.
  intros Hc Hall Hi. rewrite lookup_fmap in Hi.
  destruct (m !! i) as [x|] eqn:Hx; simpl in Hi; [|discriminate].
  injection Hi as <-.
  assert (Hsize : 0 < inject_Z (Z.of_nat (size m))).
  { change 0 with (inject_Z 0). rewrite <- Zlt_Qlt.
    destruct (decide (size m = 0%nat)) as [Hz | Hnz]; [|lia].
    apply map_size_empty_iff in Hz. rewrite Hz, lookup_empty in Hx. discriminate. }
  rewrite (sum_values_const m c Hall), (Hall i x Hx).
  field. split; lra.
Qed.

Lemma same_keys_same_size {A B : Type} (m1 : gmap string A) (m2 : gmap string B) :
  (forall n, is_Some (m1 !! n) <-> is_Some (m2 !! n)) -> size m1 = size m2.
Proof.
  intros H. rewrite <- (size_dom (D := gset string) m1), <- (size_dom (D := gset string) m2).
  f_equal. apply set_eq. intros n. rewrite !elem_of_dom. apply H.
Qed.

(** X11: built without weights (or with an empty weight map) from a list of
    at least one strategy, the ensemble gives every registered name, and no
    other, the weight [1 / k], where [k] is the number of distinct strategy
    names; the weights sum to 1. *)
Theorem X11_default_weights (strats : list BaseStrategy) (ws : option (gmap string Q)) :
  strats <> [] ->
  default ∅ ws = ∅ ->
  sum_values (weights (Ensemble.init strats ws)) == 1
  /\ (forall n, is_Some (weights (Ensemble.init strats ws) !! n)
                <-> is_Some (strategies (Ensemble.init strats ws) !! n))
  /\ (forall n w, weights (Ensemble.init strats ws) !! n = Some w ->
       w == 1 / inject_Z (Z.of_nat (size (strategies (Ensemble.init strats ws))))).
Proof.
  intros Hne Hws. unfold Ensemble.init. cbv zeta. rewrite Hws.
  destruct (decide ((∅ : gmap string Q) = ∅)) as [_ | Hx]; [|congruence].
  set (c := 1 / inject_Z (Z.of_nat (length strats))).
  assert (Hc : 0 < c).
  { unfold c. apply Qlt_shift_div_l; [|lra].
    change 0 with (inject_Z 0). rewrite <- Zlt_Qlt.
    destruct strats; [congruence | simpl; lia]. }
  assert (Hu : forall n, uniform_weights strats !! n
                         = if decide (n ∈ name <$> strats) then Some c else None).
  { intros n. unfold uniform_weights. fold c.
    rewrite uniform_fold_lookup, lookup_empty. reflexivity. }
  assert (Hs : forall n, is_Some (strategies_by_name strats !! n)
                         <-> n ∈ name <$> strats).
  { intros n. unfold strategies_by_name. rewrite strategies_fold_lookup.
    rewrite lookup_empty. split; [intros [H | [x H]]; [exact H | discriminate] | auto]. }
  assert (Hall : forall j x, uniform_weights strats !! j = Some x -> x == c).
  { intros j x Hj. rewrite Hu in Hj. destruct (decide _); [|discriminate].
    injection Hj as <-. reflexivity. }
  assert (Hnonempty : uniform_weights strats <> ∅).
  { destruct strats as [|s rest]; [congruence|]. intros He.
    pose proof (Hu (name s)) as H. rewrite He, lookup_empty in H.
    destruct (decide (name s ∈ name <$> s :: rest)) as [_ | Hout]; [discriminate|].
    apply Hout. rewrite fmap_cons. apply elem_of_cons. now left. }
  assert (Hpos : 0 < sum_values (uniform_weights strats)).
  { apply sum_values_pos; [exact Hnonempty|]. intros j x Hj. simpl.
    rewrite (Hall j x Hj). exact Hc. }
  unfold _normalize_weights. cbv zeta. simpl.
  apply Qlt_bool_true in Hpos as Hb. rewrite Hb. simpl.
  assert (Hkeys : forall n, is_Some (((fun v => v / sum_values (uniform_weights strats))
                                        <$> uniform_weights strats) !! n)
                            <-> is_Some (strategies_by_name strats !! n)).
  { intros n. rewrite lookup_fmap, Hs, Hu.
    destruct (decide (n ∈ name <$> strats)) as [Hin | Hout]; simpl.
    - split; eauto.
    - split; [intros [x H]; discriminate | contradiction]. }
  split; [now apply sum_values_normalized|]. split; [exact Hkeys|].
  intros n w Hw.
  rewrite <- (same_keys_same_size _ _ Hkeys), map_size_fmap.
  exact (equal_shares _ c n w Hc Hall Hw).
Qed.

Lemma X11_default_weights_witness :
  sum_values (weights (Ensemble.init two_strategies None)) == 1.
Proof.
  refine (proj1 (X11_default_weights two_strategies None _ _)).
  - discriminate.
  - reflexivity.
Defined.

Lemma performance_scores_registered_only (self : StrategyEnsemble)
    (pd : gmap string (gmap string Q)) :
  performance_scores self
    (filter (fun kv => is_Some (strategies self !! fst kv)) pd)
  = performance_scores self pd.
Proof.
  apply map_eq. intros n. rewrite !performance_scores_lookup.
  destruct (strategies self !! n) as [s|] eqn:Hs; [|reflexivity].
  f_equal. destruct (pd !! n) as [perf|] eqn:Hp.
  - apply map_lookup_filter_Some. split; [exact Hp|]. simpl. rewrite Hs. eauto.
  - apply map_lookup_filter_None. now left.
Qed.

Lemma update_weights_by_scores (self : StrategyEnsemble)
    (pd pd' : gmap string (gmap string Q)) :
  performance_scores self pd = performance_scores self pd' ->
  update_weights self pd = update_weights self pd'.
Proof. intros H. unfold update_weights. now rewrite H. Qed.

(** X12: entries of the performance mapping for names that are not
    registered strategies have no effect on the update, and a mapping that
    names no registered strategy (the empty one included) leaves the
    ensemble as it was. *)
Theorem X12_update_ignores_unregistered (self : StrategyEnsemble)
    (pd : gmap string (gmap string Q)) :
  update_weights self pd
  = update_weights self (filter (fun kv => is_Some (strategies self !! fst kv)) pd)
  /\ ((forall n, is_Some (pd !! n) -> strategies self !! n = None) ->
      update_weights self pd = self).
Proof.
  split.
  - apply update_weights_by_scores. symmetry.
    apply performance_scores_registered_only.
  - intros Hnone.
    destruct (update_weights_cases self pd) as [[_ H] | (Hne & _)]; [exact H|].
    exfalso. apply Hne. apply map_eq. intros n.
    rewrite performance_scores_lookup, lookup_empty.
    destruct (strategies self !! n) as [s|] eqn:Hs; [|reflexivity].
    destruct (pd !! n) as [perf|] eqn:Hp; [|reflexivity].
    rewrite (Hnone n) in Hs by eauto. discriminate.
Qed.

Lemma X12_update_ignores_unregistered_witness :
  update_weights (Ensemble.init two_strategies None)
    {[ "Value Seeker" := performance 0.9 50 10 ]}
  = Ensemble.init two_strategies None.
Proof.
  apply X12_update_ignores_unregistered.
  intros n Hn.
  destruct (decide (n = "Value Seeker")) as [-> | Hne].
  - vm_compute. reflexivity.
  - rewrite lookup_singleton_ne in Hn by congruence.
    destruct Hn as [x Hx]. discriminate.
Defined.

(** X13: when the performance mapping names at least one registered
    strategy, the weight map after the update has exactly the names that are
    both registered and in the mapping: weights kept for names that are not
    registered, or supplied at construction under other keys, are dropped. *)
Theorem X13_update_weight_keys (self : StrategyEnsemble)
    (pd : gmap string (gmap string Q)) (n0 : string) :
  is_Some (strategies self !! n0) ->
  is_Some (pd !! n0) ->
  forall n, is_Some (weights (update_weights self pd) !! n)
            <-> is_Some (strategies self !! n) /\ is_Some (pd !! n).
Proof.
  intros [s0 Hs0] [p0 Hp0] n.
  destruct (update_weights_cases self pd) as [[He _] | (_ & _ & ->)].
  - pose proof (performance_scores_lookup self pd n0) as H.
    rewrite He, lookup_empty, Hs0, Hp0 in H. discriminate.
  - simpl. rewrite lookup_fmap, performance_scores_lookup.
    destruct (strategies self !! n) as [s|]; destruct (pd !! n) as [perf|]; simpl;
      split; try (intros [x H]; discriminate); try (intros [[x H] [y H']]; discriminate);
      eauto.
Qed.

Lemma X13_update_weight_keys_witness :
  is_Some (weights (update_weights
                      {| strategies := {[ "Contrarian" := strategy "Contrarian" ]};
                         weights := {[ "contrarian" := 1 ]} |}
                      {[ "Contrarian" := performance 0 0 0 ]}) !! "contrarian")
  <-> is_Some (({[ "Contrarian" := strategy "Contrarian" ]}
                 : gmap string BaseStrategy) !! "contrarian")
      /\ is_Some (({[ "Contrarian" := performance 0 0 0 ]}
                    : gmap string (gmap string Q)) !! "contrarian").
Proof.
  refine (X13_update_weight_keys
            {| strategies := {[ "Contrarian" := strategy "Contrarian" ]};
               weights := {[ "contrarian" := 1 ]} |}
            {[ "Contrarian" := performance 0 0 0 ]} "Contrarian" _ _ "contrarian").
  - exists (strategy "Contrarian"). apply lookup_singleton_eq.
  - exists (performance 0 0 0). apply lookup_singleton_eq.
Defined.

(** X14: after an update the weights are proportional to the performance
    scores: for two registered strategies of the mapping,
    [w1 * score2 == w2 * score1], so the strategy with the higher score never
    gets the lower weight. *)
Theorem X14_weights_proportional_to_scores (self : StrategyEnsemble)
    (pd : gmap string (gmap string Q)) (n1 n2 : string) (p1 p2 : gmap string Q) :
  is_Some (strategies self !! n1) ->
  is_Some (strategies self !! n2) ->
  pd !! n1 = Some p1 ->
  pd !! n2 = Some p2 ->
  exists w1 w2,
    weights (update_weights self pd) !! n1 = Some w1
    /\ weights (update_weights self pd) !! n2 = Some w2
    /\ w1 * performance_score p2 == w2 * performance_score p1
    /\ (performance_score p1 <= performance_score p2 -> w1 <= w2).
Proof.
  intros [s1 Hs1] [s2 Hs2] Hp1 Hp2.
  destruct (update_weights_cases self pd) as [[He _] | (_ & Hpos & ->)].
  - pose proof (performance_scores_lookup self pd n1) as H.
    rewrite He, lookup_empty, Hs1, Hp1 in H. discriminate.
  - simpl. rewrite !lookup_fmap, !performance_scores_lookup, Hs1, Hs2, Hp1, Hp2.
    simpl. do 2 eexists. split; [reflexivity|]. split; [reflexivity|].
    set (t := sum_values (performance_scores self pd)) in *.
    split.
    + field. lra.
    + intros Hle. apply Qle_shift_div_l; [exact Hpos|].
      assert (E : performance_score p1 / t * t == performance_score p1)
        by (field; lra).
      rewrite E. exact Hle.
Qed.

Lemma X14_weights_proportional_to_scores_witness :
  exists w1 w2,
    weights (update_weights
               {| strategies := {[ "Momentum Trader" := strategy "Momentum Trader";
                                   "Contrarian" := strategy "Contrarian" ]};
                  weights := ∅ |}
               {[ "Momentum Trader" := performance 0.2 (-10) 4;
                  "Contrarian" := performance 0.5 10 4 ]}) !! "Momentum Trader"
    = Some w1
    /\ weights (update_weights
                  {| strategies := {[ "Momentum Trader" := strategy "Momentum Trader";
                                      "Contrarian" := strategy "Contrarian" ]};
                     weights := ∅ |}
                  {[ "Momentum Trader" := performance 0.2 (-10) 4;
                     "Contrarian" := performance 0.5 10 4 ]}) !! "Contrarian"
       = Some w2
    /\ w1 <= w2.
Proof.
  destruct (X14_weights_proportional_to_scores
              {| strategies := {[ "Momentum Trader" := strategy "Momentum Trader";
                                  "Contrarian" := strategy "Contrarian" ]};
                 weights := ∅ |}
              {[ "Momentum Trader" := performance 0.2 (-10) 4;
                 "Contrarian" := performance 0.5 10 4 ]}
              "Momentum Trader" "Contrarian"
              (performance 0.2 (-10) 4) (performance 0.5 10 4))
    as (w1 & w2 & H1 & H2 & _ & Hle).
  - exists (strategy "Momentum Trader"). apply lookup_insert_eq.
  - exists (strategy "Contrarian"). cbn [strategies].
    rewrite lookup_insert_ne by discriminate. apply lookup_singleton_eq.
  - apply lookup_insert_eq.
  - rewrite lookup_insert_ne by discriminate. apply lookup_singleton_eq.
  - exists w1, w2. split; [exact H1|]. split; [exact H2|].
    apply Hle. vm_compute. intros H. discriminate H.
Defined.

(** X15: when every registered strategy is in the performance mapping and
    none has a trade yet ([total_trades] missing, 0 or negative), the update
    gives each of them the weight [1 / k], [k] being the number of
    registered strategies, whatever the weights were before. *)
Theorem X15_no_history_gives_uniform (self : StrategyEnsemble)
    (pd : gmap string (gmap string Q)) :
  map_Forall (fun n _ => exists perf, pd !! n = Some perf
                                      /\ perf_get perf "total_trades" <= 0)
             (strategies self) ->
  forall n, is_Some (strategies self !! n) ->
    exists w, weights (update_weights self pd) !! n = Some w
              /\ w == 1 / inject_Z (Z.of_nat (size (strategies self))).
Proof.
  intros Hall n [s Hs].
  destruct (Hall n s Hs) as (perf & Hp & Ht).
  assert (Hscore : forall j x, performance_scores self pd !! j = Some x -> x == 0.5).
  { intros j x Hj. rewrite performance_scores_lookup in Hj.
    destruct (strategies self !! j) as [sj|] eqn:Hsj; [|discriminate].
    destruct (Hall j sj Hsj) as (pj & Hpj & Htj). rewrite Hpj in Hj. simpl in Hj.
    injection Hj as <-. unfold performance_score. cbv zeta.
    apply Qlt_bool_false in Htj. now rewrite Htj. }
  assert (Hkeys : forall j, is_Some (performance_scores self pd !! j)
                            <-> is_Some (strategies self !! j)).
  { intros j. rewrite performance_scores_lookup.
    destruct (strategies self !! j) as [sj|] eqn:Hsj.
    - destruct (Hall j sj Hsj) as (pj & Hpj & _). rewrite Hpj. simpl. split; eauto.
    - split; intros [x H]; discriminate. }
  destruct (update_weights_cases self pd) as [[He _] | (_ & _ & ->)].
  - pose proof (performance_scores_lookup self pd n) as H.
    rewrite He, lookup_empty, Hs, Hp in H. discriminate.
  - simpl.
    destruct (proj2 (Hkeys n) (ex_intro _ s Hs)) as [x Hx].
    exists (x / sum_values (performance_scores self pd)).
    assert (Hw : ((fun score => score / sum_values (performance_scores self pd))
                    <$> performance_scores self pd) !! n
                 = Some (x / sum_values (performance_scores self pd)))
      by (rewrite lookup_fmap, Hx; reflexivity).
    split; [exact Hw|].
    rewrite <- (same_keys_same_size _ _ Hkeys).
    apply (equal_shares _ 0.5 n _ ltac:(lra) Hscore Hw).
Qed.

Lemma X15_no_history_gives_uniform_witness :
  exists w,
    weights (update_weights
               {| strategies := {[ "Contrarian" := strategy "Contrarian" ]};
                  weights := {[ "Contrarian" := 3; "momentum" := 1 ]} |}
               {[ "Contrarian" := performance 0 0 0 ]}) !! "Contrarian" = Some w
    /\ w == 1 / inject_Z (Z.of_nat (size ({[ "Contrarian" := strategy "Contrarian" ]}
                                          : gmap string BaseStrategy))).
Proof.
  refine (X15_no_history_gives_uniform
            {| strategies := {[ "Contrarian" := strategy "Contrarian" ]};
               weights := {[ "Contrarian" := 3; "momentum" := 1 ]} |}
            {[ "Contrarian" := performance 0 0 0 ]} _ "Contrarian" _).
  - apply map_Forall_singleton. exists (performance 0 0 0).
    split; [apply lookup_singleton_eq|]. vm_compute. intros H. discriminate H.
  - exists (strategy "Contrarian"). apply lookup_singleton_eq.
Defined.

(** X16: [enable_strategy] changes nothing but the flag of the named
    strategy: an unknown name leaves the ensemble as it was, the weights are
    kept, and a later [update_weights] gives the same weights whether the
    strategy is enabled or not, so a disabled strategy is still reweighted. *)
Theorem X16_enable_strategy (self : StrategyEnsemble) (n : string) (flag : bool)
    (pd : gmap string (gmap string Q)) :
  (strategies self !! n = None -> enable_strategy self n flag = self)
  /\ (forall s, strategies self !! n = Some s ->
       strategies (enable_strategy self n flag) !! n
       = Some {| name := name s; enabled := flag |})
  /\ (forall other, other <> n ->
       strategies (enable_strategy self n flag) !! other = strategies self !! other)
  /\ weights (enable_strategy self n flag) = weights self
  /\ weights (update_weights (enable_strategy self n flag) pd)
     = weights (update_weights self pd).
Proof.
  split; [|split; [|split; [|split]]].
  - intros Hn. unfold enable_strategy. destruct self as [st ws]. simpl in *.
    f_equal. apply map_eq. intros j. rewrite lookup_alter.
    destruct (decide (n = j)) as [<- | _]; [|reflexivity]. now rewrite Hn.
  - intros s Hs. unfold enable_strategy. simpl. rewrite lookup_alter.
    destruct (decide (n = n)); [|congruence]. now rewrite Hs.
  - intros other Hne. unfold enable_strategy. simpl.
    rewrite lookup_alter_ne by congruence. reflexivity.
  - reflexivity.
  - assert (Hscores : performance_scores (enable_strategy self n flag) pd
                      = performance_scores self pd).
    { apply map_eq. intros j. rewrite !performance_scores_lookup.
      unfold enable_strategy. simpl. rewrite lookup_alter.
      destruct (decide (n = j)) as [<- | _]; [|reflexivity].
      destruct (strategies self !! n); reflexivity. }
    unfold update_weights. cbv zeta. rewrite Hscores.
    destruct (decide (performance_scores self pd = ∅)); [reflexivity|].
    destruct (Qlt_bool 0 (sum_values (performance_scores self pd))); reflexivity.
Qed.

Lemma X16_enable_strategy_witness :
  enable_strategy {| strategies := {[ "Contrarian" := strategy "Contrarian" ]};
                     weights := {[ "Contrarian" := 1 ]} |} "Value Seeker" false
  = {| strategies := {[ "Contrarian" := strategy "Contrarian" ]};
       weights := {[ "Contrarian" := 1 ]} |}.
Proof.
  refine (proj1 (X16_enable_strategy
                   {| strategies := {[ "Contrarian" := strategy "Contrarian" ]};
                      weights := {[ "Contrarian" := 1 ]} |}
                   "Value Seeker" false ∅) _).
  apply lookup_singleton_ne. discriminate.
Defined.

(* ===================================================================== *)
(** ** Ensemble: what the consensus can be *)
(* ===================================================================== *)

(** The two ways [_combine_signals] ends, with the consensus fields written
    with the sums over the signals. *)
Lemma combine_cases (format_0f format_1pct : Q -> string) (self : StrategyEnsemble)
    (signals : list (string * StrategySignal)) :
  ((signals = [] \/ total_effective_weight self signals == 0)
   /\ _combine_signals format_0f format_1pct self signals = None)
  \/ (signals <> []
      /\ ~ total_effective_weight self signals == 0
      /\ exists c,
           _combine_signals format_0f format_1pct self signals = Some c
           /\ probability c
              == weighted_sum probability self signals
                 / total_effective_weight self signals
           /\ confidence c
              == weighted_sum confidence self signals
                 / total_effective_weight self signals
           /\ direction c
              = (if Qlt_bool (mass NO self signals) (mass YES self signals)
                 then YES else NO)
           /\ strength c
              == Qabs (mass YES self signals - mass NO self signals)
                 / total_effective_weight self signals).
Proof.
  destruct (tally_sums self signals tally0) as (H1 & H2 & H3 & H4 & H5).
  simpl in H1, H2, H3, H4, H5.
  rewrite Qplus_0_l in H1, H2, H3, H4, H5.
  unfold _combine_signals.
  destruct signals as [|item rest]; [left; auto|].
  set (signals := item :: rest) in *.
  set (t := fold_left (vote self) signals tally0) in *.
  destruct (Qeq_bool (total_weight t) 0) eqn:Ez; reflect_cmp.
  - left. split; [right; now rewrite <- H1 | reflexivity].
  - right. split; [discriminate|]. split; [now rewrite <- H1|].
    eexists. split; [reflexivity|].
    cbn [probability confidence direction strength].
    split; [now rewrite H1, H2|]. split; [now rewrite H1, H3|].
    split; [now rewrite (Qlt_bool_comp _ _ _ _ H5 H4)|].
    now rewrite H1, H4, H5.
Qed.

Lemma total_cons (self : StrategyEnsemble) (item : string * StrategySignal)
    (signals : list (string * StrategySignal)) :
  total_effective_weight self (item :: signals)
  == effective_weight self item + total_effective_weight self signals.
Proof. reflexivity. Qed.

Lemma weighted_sum_cons (field : StrategySignal -> Q) (self : StrategyEnsemble)
    (item : string * StrategySignal) (signals : list (string * StrategySignal)) :
  weighted_sum field self (item :: signals)
  == field (snd item) * effective_weight self item + weighted_sum field self signals.
Proof. reflexivity. Qed.

Lemma total_nonneg (self : StrategyEnsemble) (signals : list (string * StrategySignal)) :
  Forall (fun item => 0 <= effective_weight self item) signals ->
  0 <= total_effective_weight self signals.
Proof.
  induction 1 as [|item signals Hw _ IH]; [unfold total_effective_weight; simpl; lra|].
  rewrite total_cons. lra.
Qed.

Lemma mass_nonneg (d : Direction) (self : StrategyEnsemble)
    (signals : list (string * StrategySignal)) :
  Forall (fun item => 0 <= effective_weight self item) signals ->
  0 <= mass d self signals.
Proof.
  induction 1 as [|item signals Hw _ IH]; [unfold mass; simpl; lra|].
  rewrite mass_cons. destruct (decide (direction (snd item) = d)); lra.
Qed.

Lemma total_is_yes_plus_no (self : StrategyEnsemble)
    (signals : list (string * StrategySignal)) :
  total_effective_weight self signals
  == mass YES self signals + mass NO self signals.
Proof.
  induction signals as [|item signals IH]; [unfold total_effective_weight, mass; simpl; lra|].
  rewrite total_cons, !mass_cons, IH.
  destruct (direction (snd item)); simpl; ring.
Qed.

Lemma weighted_sum_bounds (field : StrategySignal -> Q) (lo hi : Q)
    (self : StrategyEnsemble) (signals : list (string * StrategySignal)) :
  Forall (fun item => 0 <= effective_weight self item) signals ->
  Forall (fun item => lo <= field (snd item) <= hi) signals ->
  lo * total_effective_weight self signals <= weighted_sum field self signals
  /\ weighted_sum field self signals <= hi * total_effective_weight self signals.
Proof.
  intros Hw Hf. induction Hw as [|item signals Hw _ IH].
  - unfold total_effective_weight, weighted_sum. simpl. split; lra.
  - apply Forall_cons in Hf as [[Hlo Hhi] Hf]. specialize (IH Hf).
    rewrite total_cons, weighted_sum_cons.
    destruct IH as [IHlo IHhi]. split; nra.
Qed.

(** X17: with effective weights that are not negative, the consensus
    probability and the consensus confidence are weighted means: each lies
    between any lower and upper bound that holds for every input signal, so
    inputs within [0, 1] give a consensus within [0, 1]. *)
Theorem X17_consensus_within_inputs (format_0f format_1pct : Q -> string)
    (self : StrategyEnsemble) (signals : list (string * StrategySignal))
    (c : StrategySignal) (lo hi : Q) :
  Forall (fun item => 0 <= effective_weight self item) signals ->
  _combine_signals format_0f format_1pct self signals = Some c ->
  (Forall (fun item => lo <= probability (snd item) <= hi) signals ->
   lo <= probability c <= hi)
  /\ (Forall (fun item => lo <= confidence (snd item) <= hi) signals ->
      lo <= confidence c <= hi).
Proof.
  intros Hw Hc.
  destruct (combine_cases format_0f format_1pct self signals)
    as [[_ Hn] | (_ & Hne & c' & Hc' & Hp & Hcf & _)]; [congruence|].
  rewrite Hc in Hc'. injection Hc' as <-.
  pose proof (total_nonneg self signals Hw) as Ht.
  assert (Hpos : 0 < total_effective_weight self signals) by lra.
  split; intros Hf.
  - destruct (weighted_sum_bounds probability lo hi self signals Hw Hf) as [Hlo Hhi].
    rewrite Hp. split; [apply Qle_shift_div_l | apply Qle_shift_div_r]; assumption.
  - destruct (weighted_sum_bounds confidence lo hi self signals Hw Hf) as [Hlo Hhi].
    rewrite Hcf. split; [apply Qle_shift_div_l | apply Qle_shift_div_r]; assumption.
Qed.

(** X18: with effective weights that are not negative, the agreement
    strength of a consensus lies in [0, 1]. *)
Theorem X18_strength_in_unit_interval (format_0f format_1pct : Q -> string)
    (self : StrategyEnsemble) (signals : list (string * StrategySignal))
    (c : StrategySignal) :
  Forall (fun item => 0 <= effective_weight self item) signals ->
  _combine_signals format_0f format_1pct self signals = Some c ->
  0 <= strength c <= 1.
Proof.
  intros Hw Hc.
  destruct (combine_cases format_0f format_1pct self signals)
    as [[_ Hn] | (_ & Hne & c' & Hc' & _ & _ & _ & Hs)]; [congruence|].
  rewrite Hc in Hc'. injection Hc' as <-.
  pose proof (total_nonneg self signals Hw) as Ht.
  pose proof (mass_nonneg YES self signals Hw) as Hy.
  pose proof (mass_nonneg NO self signals Hw) as Hn.
  pose proof (total_is_yes_plus_no self signals) as Hsplit.
  assert (Hpos : 0 < total_effective_weight self signals) by lra.
  rewrite Hs. split.
  - apply Qle_shift_div_l; [exact Hpos|].
    pose proof (Qabs_nonneg (mass YES self signals - mass NO self signals)). lra.
  - apply Qle_shift_div_r; [exact Hpos|].
    apply Qabs_Qle_condition. split; lra.
Qed.

(** X19: when every signal bets the same side and the total effective
    weight is positive, the consensus bets that side with strength 1. *)
Theorem X19_unanimous_signals (format_0f format_1pct : Q -> string)
    (self : StrategyEnsemble) (signals : list (string * StrategySignal))
    (d : Direction) :
  Forall (fun item => direction (snd item) = d) signals ->
  0 < total_effective_weight self signals ->
  exists c, _combine_signals format_0f format_1pct self signals = Some c
            /\ direction c = d
            /\ strength c == 1.
Proof.
  intros Hd Hpos.
  assert (Hsame : mass d self signals == total_effective_weight self signals).
  { clear Hpos. induction Hd as [|item signals Hi _ IH].
    - reflexivity.
    - rewrite mass_cons, total_cons, IH.
      destruct (decide (direction (snd item) = d)); [reflexivity | contradiction]. }
  assert (Hother : mass (opposite d) self signals == 0).
  { pose proof (total_is_yes_plus_no self signals) as Hsplit.
    destruct d; simpl; lra. }
  destruct (combine_cases format_0f format_1pct self signals)
    as [[[-> | Hz] _] | (_ & Hne & c & Hc & _ & _ & Hdir & Hs)].
  - unfold total_effective_weight in Hpos. simpl in Hpos. lra.
  - lra.
  - exists c. split; [exact Hc|]. split.
    + rewrite Hdir. destruct d; simpl in Hother.
      * assert (E : Qlt_bool (mass NO self signals) (mass YES self signals) = true)
          by (apply Qlt_bool_true; lra).
        now rewrite E.
      * assert (E : Qlt_bool (mass NO self signals) (mass YES self signals) = false)
          by (apply Qlt_bool_false; lra).
        now rewrite E.
    + rewrite Hs.
      assert (Habs : Qabs (mass YES self signals - mass NO self signals)
                     == total_effective_weight self signals).
      { destruct d; simpl in Hother.
        - rewrite Qabs_pos by lra. lra.
        - rewrite Qabs_neg by lra. lra. }
      rewrite Habs. field. lra.
Qed.

(** X20: a signal counts only through the weight stored under its
    estimator's name: when no signal's name is a key of the weight map, there
    is no consensus, whatever the signals say. *)
Theorem X20_unweighted_names_give_none (format_0f format_1pct : Q -> string)
    (self : StrategyEnsemble) (signals : list (string * StrategySignal)) :
  Forall (fun item => weights self !! fst item = None) signals ->
  _combine_signals format_0f format_1pct self signals = None.
Proof.
  intros Hnone.
  assert (Hz : total_effective_weight self signals == 0).
  { induction Hnone as [|item signals Hi _ IH]; [reflexivity|].
    rewrite total_cons, IH. unfold effective_weight, weight_of. rewrite Hi.
    simpl. ring. }
  destruct (combine_cases format_0f format_1pct self signals)
    as [[_ H] | (_ & Hne & _)]; [exact H | contradiction].
Qed.

Lemma X17_consensus_within_inputs_witness :
  match _combine_signals no_format no_format
          {| strategies := ∅; weights := {[ "Contrarian" := 1 ]} |}
          [("Contrarian", test_signal 0.70 0.80 YES)] with
  | Some c => 0 <= probability c <= 1
  | None => True
  end.
Proof.
  destruct (_combine_signals _ _ _ _) as [c|] eqn:Hc; [|exact I].
  refine (proj1 (X17_consensus_within_inputs no_format no_format _ _ c 0 1 _ Hc) _).
  - repeat constructor. vm_compute. intros H. discriminate H.
  - repeat constructor; vm_compute; intros H; discriminate H.
Defined.

Lemma X18_strength_in_unit_interval_witness :
  match _combine_signals no_format no_format
          {| strategies := ∅; weights := {[ "Contrarian" := 1 ]} |}
          [("Contrarian", test_signal 0.70 0.80 YES)] with
  | Some c => 0 <= strength c <= 1
  | None => True
  end.
Proof.
  destruct (_combine_signals _ _ _ _) as [c|] eqn:Hc; [|exact I].
  refine (X18_strength_in_unit_interval no_format no_format _ _ c _ Hc).
  repeat constructor. vm_compute. intros H. discriminate H.
Defined.

Lemma X19_unanimous_signals_witness :
  exists c,
    _combine_signals no_format no_format
      {| strategies := ∅; weights := {[ "Contrarian" := 1 ]} |}
      [("Contrarian", test_signal 0.30 0.80 NO)] = Some c
    /\ direction c = NO
    /\ strength c == 1.
Proof.
  apply X19_unanimous_signals.
  - repeat constructor.
  - vm_compute. reflexivity.
Defined.

Lemma X20_unweighted_names_give_none_witness :
  _combine_signals no_format no_format
    {| strategies := ∅; weights := {[ "contrarian" := 0.15 ]} |}
    [("Contrarian", test_signal 0.30 0.80 NO)] = None.
Proof.
  apply X20_unweighted_names_give_none.
  repeat constructor.
Defined.

(* ===================================================================== *)
(** ** Ensemble: collecting the signals *)
(* ===================================================================== *)

Lemma collect_propagated (run : BaseStrategy -> Outcome)
    (items : list (string * BaseStrategy)) :
  fold_left (collect_one run) items Propagated = Propagated.
Proof. induction items as [|item items IH]; simpl; [reflexivity | exact IH]. Qed.

Lemma collect_silent_step (run : BaseStrategy -> Outcome)
    (item : string * BaseStrategy) (acc : Call (list (string * StrategySignal))) :
  silent run item = true -> collect_one run acc item = acc.
Proof.
  unfold silent, collect_one. destruct acc as [signals|]; [|reflexivity].
  destruct (enabled (snd item)); simpl; [|reflexivity].
  destruct (run (snd item)); intros H; try discriminate; reflexivity.
Qed.

Lemma collect_all_silent (run : BaseStrategy -> Outcome)
    (items : list (string * BaseStrategy)) (acc : Call (list (string * StrategySignal))) :
  Forall (fun other => silent run other = true) items ->
  fold_left (collect_one run) items acc = acc.
Proof.
  intros H. revert acc. induction H as [|other rest Ho _ IH]; intros acc; simpl.
  - reflexivity.
  - rewrite (collect_silent_step run other acc Ho). apply IH.
Qed.

Lemma collect_escapes_iff (run : BaseStrategy -> Outcome)
    (items : list (string * BaseStrategy)) (signals : list (string * StrategySignal)) :
  fold_left (collect_one run) items (Returned signals) = Propagated
  <-> Exists (fun other => escapes run other = true) items.
Proof.
  revert signals. induction items as [|item items IH]; intros signals; simpl.
  - split; [discriminate | intros H; inversion H].
  - rewrite Exists_cons. unfold escapes at 1.
    destruct (enabled (snd item)); simpl.
    + destruct (run (snd item)); simpl; rewrite ?collect_propagated, ?IH;
        intuition discriminate.
    + rewrite IH. intuition discriminate.
Qed.

(** X23: in [analyze] a strategy that is disabled, returns no signal or
    raises an [Exception] has no effect: the other strategies are collected
    and fused as if it were absent, and when every strategy is silent the
    result is [None].  An exception leaves [analyze] exactly when an enabled
    strategy raises one that is not an [Exception]. *)
Theorem X23_analyze_skips_silent_strategies (format_0f format_1pct : Q -> string)
    (self : StrategyEnsemble) (run : BaseStrategy -> Outcome)
    (before after : list (string * BaseStrategy)) (item : string * BaseStrategy) :
  (silent run item = true ->
   analyze format_0f format_1pct self (before ++ item :: after) run
   = analyze format_0f format_1pct self (before ++ after) run)
  /\ (Forall (fun other => silent run other = true) (before ++ item :: after) ->
      analyze format_0f format_1pct self (before ++ item :: after) run
      = Returned None)
  /\ (analyze format_0f format_1pct self (before ++ item :: after) run = Propagated
      <-> Exists (fun other => escapes run other = true) (before ++ item :: after)).
Proof.
  split; [|split].
  - intros Hsilent. unfold analyze, collect_signals.
    rewrite !fold_left_app. simpl.
    now rewrite (collect_silent_step run item _ Hsilent).
  - intros Hall. unfold analyze, collect_signals.
    now rewrite (collect_all_silent run _ _ Hall).
  - rewrite <- (collect_escapes_iff run (before ++ item :: after) []).
    unfold analyze, collect_signals.
    destruct (fold_left (collect_one run) (before ++ item :: after) (Returned []))
      as [[|first rest]|]; split; intros H; try discriminate; reflexivity.
Qed.

Lemma X23_analyze_skips_silent_strategies_witness :
  analyze no_format no_format
    {| strategies := ∅; weights := {[ "Contrarian" := 1 ]} |}
    three_items momentum_raises
  = analyze no_format no_format
      {| strategies := ∅; weights := {[ "Contrarian" := 1 ]} |}
      [("Contrarian", strategy "Contrarian");
       ("Value Seeker", strategy "Value Seeker")] momentum_raises.
Proof.
  refine (proj1 (X23_analyze_skips_silent_strategies no_format no_format
                   {| strategies := ∅; weights := {[ "Contrarian" := 1 ]} |}
                   momentum_raises
                   [("Contrarian", strategy "Contrarian")]
                   [("Value Seeker", strategy "Value Seeker")]
                   ("Momentum Trader", strategy "Momentum Trader")) _).
  reflexivity.
Defined.

(* ===================================================================== *)
(** ** Estimators: what their signals look like to the sizer *)
(* ===================================================================== *)

(** On a market quoted strictly between 0 and 1, an edge of at least 0.05
    takes the signal past both rejections, to the limits and the portfolio. *)
Lemma sized_when_edge_clears (self : RiskManager) (signal : StrategySignal)
    (market : Market) (balance : Q) :
  0 < quoted_probability market < 1 ->
  0.05 <= directional_edge signal (quoted_probability market) ->
  exists k, 0 < k
            /\ calculate_bet_size self signal market balance
               = Ok (fit_portfolio self
                       (apply_limits self
                          (k * kelly_fraction self * balance * confidence signal))
                       balance).
Proof.
  intros [H0 H1] He.
  destruct (directional_odds_Ok signal (quoted_probability market)) as (o & Ho & Hedge).
  { unfold odds_divisor. destruct (direction signal); lra. }
  rewrite <- Hedge in He.
  destruct (kelly_positive signal _ o H0 H1 Ho) as (k & Hk & Hpos); [lra|].
  exists k. split; [exact Hpos|].
  now apply (calculate_bet_size_sized self signal market balance o k).
Qed.

Lemma contrarian_confidence_bounds (self : Contrarian.ContrarianStrategy)
    (p volume traders : Q) (ty : Contrarian.ExtremeType) (c : Q) :
  Contrarian._calculate_confidence self p volume traders ty = Ok c ->
  0.2 <= c <= 0.8.
Proof.
  unfold Contrarian._calculate_confidence.
  destruct (match ty with
            | Contrarian.high => _
            | Contrarian.low => _
            end) as [e|]; simpl; [|discriminate].
  intros [= <-]. split; [apply py_max_ge_l|].
  apply py_max_lub; [lra | apply py_min_le_l].
Qed.

Lemma contrarian_target_bounds (self : Contrarian.ContrarianStrategy) (p : Q)
    (ty : Contrarian.ExtremeType) :
  0.05 <= Contrarian._calculate_reversion_target self p ty <= 0.95.
Proof.
  unfold Contrarian._calculate_reversion_target. cbv zeta.
  split; [apply py_max_ge_l|]. apply py_max_lub; [lra | apply py_min_le_l].
Qed.

(** The two ways the contrarian estimator produces a signal. *)
Lemma contrarian_signal_cases (format_1pct format_str : Q -> string)
    (self : Contrarian.ContrarianStrategy) (market : MarketSnapshot)
    (s : StrategySignal) :
  Contrarian.analyze format_1pct format_str self market = Ok (Some s) ->
  let p := default 0.5 (mkt_probability market) in
  3 <= default 0 (mkt_uniqueBettorCount market)
  /\ exists c,
       0.2 <= c <= 0.8 /\ confidence s = c
       /\ ((Contrarian.extreme_threshold_high self <= p
            /\ direction s = NO
            /\ probability s = Contrarian._calculate_reversion_target self p Contrarian.high
            /\ strength s = py_min 1.0 ((p - Contrarian.extreme_threshold_high self) * c))
           \/ (p < Contrarian.extreme_threshold_high self
               /\ p <= Contrarian.extreme_threshold_low self
               /\ direction s = YES
               /\ probability s
                  = Contrarian._calculate_reversion_target self p Contrarian.low
               /\ strength s
                  = py_min 1.0 ((Contrarian.extreme_threshold_low self - p) * c))).
Proof.
  unfold Contrarian.analyze. cbv zeta.
  set (p := default 0.5 (mkt_probability market)).
  set (volume := default 0 (mkt_volume market)).
  set (traders := default 0 (mkt_uniqueBettorCount market)).
  destruct (Qlt_bool traders 3) eqn:Et; [discriminate|].
  destruct (Qle_bool (Contrarian.extreme_threshold_high self) p) eqn:Eh.
  - destruct (Contrarian._calculate_confidence self p volume traders Contrarian.high)
      as [c|] eqn:Ec; simpl; [|discriminate].
    intros [= <-]. reflect_cmp. split; [exact Et|].
    exists c. split; [exact (contrarian_confidence_bounds _ _ _ _ _ _ Ec)|].
    split; [reflexivity|]. left. simpl. auto.
  - destruct (Qle_bool p (Contrarian.extreme_threshold_low self)) eqn:El; [|discriminate].
    destruct (Contrarian._calculate_confidence self p volume traders Contrarian.low)
      as [c|] eqn:Ec; simpl; [|discriminate].
    intros [= <-]. reflect_cmp. split; [exact Et|].
    exists c. split; [exact (contrarian_confidence_bounds _ _ _ _ _ _ Ec)|].
    split; [reflexivity|]. right. simpl. auto.
Qed.

(** X24: every signal of the contrarian estimator, for any thresholds and
    any market, has probability within [0.05, 0.95], confidence within
    [0.2, 0.8] and strength at most 1, comes from a market with at least 3
    traders, and bets against the extreme: NO when the quote is at or above
    the high threshold, YES when it is below the high and at or below the low
    threshold. *)
Theorem X24_contrarian_signal_bounds (format_1pct format_str : Q -> string)
    (self : Contrarian.ContrarianStrategy) (market : MarketSnapshot)
    (s : StrategySignal) :
  Contrarian.analyze format_1pct format_str self market = Ok (Some s) ->
  0.05 <= probability s <= 0.95
  /\ 0.2 <= confidence s <= 0.8
  /\ strength s <= 1
  /\ 3 <= default 0 (mkt_uniqueBettorCount market)
  /\ match direction s with
     | NO => Contrarian.extreme_threshold_high self <= default 0.5 (mkt_probability market)
     | YES => default 0.5 (mkt_probability market) < Contrarian.extreme_threshold_high self
              /\ default 0.5 (mkt_probability market)
                 <= Contrarian.extreme_threshold_low self
     end.
Proof.
  intros H. apply contrarian_signal_cases in H. cbv zeta in H.
  destruct H as (Ht & c & Hc & Hconf & [(Hh & Hd & Hp & Hs) | (Hh & Hl & Hd & Hp & Hs)]);
    rewrite Hp, Hconf, Hs, Hd.
  - split; [apply contrarian_target_bounds|]. split; [exact Hc|].
    split; [|split; assumption].
    match goal with |- py_min ?a ?b <= _ => pose proof (py_min_le_l a b) end. lra.
  - split; [apply contrarian_target_bounds|]. split; [exact Hc|].
    split; [|split; [assumption | split; assumption]].
    match goal with |- py_min ?a ?b <= _ => pose proof (py_min_le_l a b) end. lra.
Qed.

Lemma X24_contrarian_signal_bounds_witness :
  match Contrarian.analyze no_format no_format (Contrarian.init None None None)
          {| mkt_probability := Some 0.90; mkt_volume := Some 1000;
             mkt_uniqueBettorCount := Some 10; mkt_pool := None |} with
  | Ok (Some s) => 0.05 <= probability s <= 0.95
  | _ => True
  end.
Proof.
  destruct (Contrarian.analyze _ _ _ _) as [[s|]|] eqn:Hs; try exact I.
  exact (proj1 (X24_contrarian_signal_bounds _ _ _ _ s Hs)).
Defined.

(** X25: with the default thresholds (0.85, 0.15, reversion to 0.5), every
    contrarian signal on a market quoted strictly between 0 and 1 has a
    directional edge of at least 0.105, so the sizer never rejects it for
    insufficient edge or for a Kelly fraction that is not positive: whether
    it is bet is decided by the limits and the portfolio alone. *)
Theorem X25_contrarian_signal_clears_edge (format_1pct format_str : Q -> string)
    (market : MarketSnapshot) (s : StrategySignal) (rm : RiskManager) (balance : Q) :
  0 < default 0.5 (mkt_probability market) < 1 ->
  Contrarian.analyze format_1pct format_str (Contrarian.init None None None) market
  = Ok (Some s) ->
  0.105 <= directional_edge s (default 0.5 (mkt_probability market))
  /\ exists k, 0 < k
               /\ calculate_bet_size rm s (as_market market) balance
                  = Ok (fit_portfolio rm
                          (apply_limits rm
                             (k * kelly_fraction rm * balance * confidence s))
                          balance).
Proof.
  intros Hp H. apply contrarian_signal_cases in H. cbv zeta in H.
  set (p := default 0.5 (mkt_probability market)) in *.
  assert (Hedge : 0.105 <= directional_edge s p).
  { destruct H as (_ & c & _ & _ & [(Hh & Hd & Hs & _) | (_ & Hl & Hd & Hs & _)]);
      simpl in Hh || simpl in Hl;
      unfold directional_edge; rewrite Hd, Hs;
      unfold Contrarian._calculate_reversion_target, py_max, py_min; cbv zeta; simpl;
      repeat (split_cmp; reflect_cmp); lra. }
  split; [exact Hedge|].
  apply sized_when_edge_clears; [exact Hp|].
  change (quoted_probability (as_market market)) with p. lra.
Qed.

Lemma X25_contrarian_signal_clears_edge_witness :
  match Contrarian.analyze no_format no_format (Contrarian.init None None None)
          {| mkt_probability := Some 0.90; mkt_volume := Some 1000;
             mkt_uniqueBettorCount := Some 10; mkt_pool := None |} with
  | Ok (Some s) => 0.105 <= directional_edge s 0.90
  | _ => True
  end.
Proof.
  destruct (Contrarian.analyze _ _ _ _) as [[s|]|] eqn:Hs; try exact I.
  refine (proj1 (X25_contrarian_signal_clears_edge _ _ _ s default_manager 1000 _ Hs)).
  split; vm_compute; reflexivity.
Defined.

(** X26: with the default thresholds and a quote within [0, 1], the strength
    of a contrarian signal is at most 0.12, below the 0.3 that
    [should_trade] requires: the estimator's own [should_trade] refuses every
    signal its [analyze] produces, whatever the base class answers. *)
Theorem X26_contrarian_should_trade_refuses (format_1pct format_str : Q -> string)
    (market : MarketSnapshot) (s : StrategySignal) (base_ok : bool) :
  0 <= default 0.5 (mkt_probability market) <= 1 ->
  Contrarian.analyze format_1pct format_str (Contrarian.init None None None) market
  = Ok (Some s) ->
  strength s <= 0.12
  /\ Contrarian.should_trade base_ok s = false.
Proof.
  intros Hp H. apply contrarian_signal_cases in H. cbv zeta in H.
  set (p := default 0.5 (mkt_probability market)) in *.
  assert (Hs : strength s <= 0.12).
  { destruct H as (_ & c & Hc & _ & [(Hh & _ & _ & Hs) | (_ & Hl & _ & _ & Hs)]);
      simpl in Hh || simpl in Hl; rewrite Hs; simpl;
      unfold py_min; split_cmp; reflect_cmp; nra. }
  split; [exact Hs|].
  unfold Contrarian.should_trade.
  destruct base_ok; simpl; [|reflexivity].
  destruct (Qlt_bool (confidence s) 0.4); [reflexivity|].
  assert (E : Qlt_bool (strength s) 0.3 = true) by (apply Qlt_bool_true; lra).
  now rewrite E.
Qed.

Lemma X26_contrarian_should_trade_refuses_witness :
  match Contrarian.analyze no_format no_format (Contrarian.init None None None)
          {| mkt_probability := Some 0.90; mkt_volume := Some 1000;
             mkt_uniqueBettorCount := Some 10; mkt_pool := None |} with
  | Ok (Some s) => Contrarian.should_trade true s = false
  | _ => True
  end.
Proof.
  destruct (Contrarian.analyze _ _ _ _) as [[s|]|] eqn:Hs; try exact I.
  refine (proj2 (X26_contrarian_should_trade_refuses _ _ _ s true _ Hs)).
  split; vm_compute; intros H; discriminate H.
Defined.

(** The only way the value estimator produces a signal. *)
Lemma value_signal_cases (format_1pct format_0f format_str : Q -> string)
    (self : Value.ValueStrategy) (market : MarketSnapshot) (s : StrategySignal) :
  Value.analyze format_1pct format_0f format_str self market = Some s ->
  let p := default 0.5 (mkt_probability market) in
  let traders := default 0 (mkt_uniqueBettorCount market) in
  let liquidity := default 0 (default ∅ (mkt_pool market) !! "YES")
                   + default 0 (default ∅ (mkt_pool market) !! "NO") in
  let fv := 0.5 + (p - 0.5) * 0.7 in
  Value.min_liquidity self <= liquidity
  /\ Value.min_traders self <= traders
  /\ traders < 10
  /\ Value.value_threshold self <= Qabs (fv - p)
  /\ probability s = fv
  /\ direction s = (if Qlt_bool p fv then YES else NO)
  /\ confidence s = Value._calculate_confidence liquidity traders (Qabs (fv - p))
  /\ strength s = py_min 1.0 (Qabs (fv - p) * 2).
Proof.
  unfold Value.analyze, Value._estimate_fundamental_value. cbv zeta.
  set (p := default 0.5 (mkt_probability market)).
  set (traders := default 0 (mkt_uniqueBettorCount market)).
  set (liquidity := default 0 (default ∅ (mkt_pool market) !! "YES")
                    + default 0 (default ∅ (mkt_pool market) !! "NO")).
  destruct (Qlt_bool liquidity (Value.min_liquidity self)) eqn:El; [discriminate|].
  destruct (Qlt_bool traders (Value.min_traders self)) eqn:Et; [discriminate|].
  cbn [orb].
  destruct (Qlt_bool traders 10) eqn:E10; [|discriminate].
  destruct (Qlt_bool (Qabs (0.5 + (p - 0.5) * 0.7 - p)) (Value.value_threshold self))
    eqn:Eg; [discriminate|].
  intros [= <-]. reflect_cmp.
  cbn [probability confidence direction strength].
  repeat split; assumption || reflexivity.
Qed.

(** X27: the value estimator signals only for a market with at least
    [min_liquidity] in its pool, at least [min_traders] and fewer than 10
    traders, and a gap of at least [value_threshold]; the signal's
    probability is the quote pulled 30% of the way to 0.5, its direction is
    YES exactly when the quote is below 0.5, its confidence lies within
    [0.2, 0.9] and its strength is at most 1. *)
Theorem X27_value_signal_shape (format_1pct format_0f format_str : Q -> string)
    (self : Value.ValueStrategy) (market : MarketSnapshot) (s : StrategySignal) :
  Value.analyze format_1pct format_0f format_str self market = Some s ->
  Value.min_traders self <= default 0 (mkt_uniqueBettorCount market)
  /\ default 0 (mkt_uniqueBettorCount market) < 10
  /\ Value.min_liquidity self
     <= default 0 (default ∅ (mkt_pool market) !! "YES")
        + default 0 (default ∅ (mkt_pool market) !! "NO")
  /\ probability s
     == default 0.5 (mkt_probability market)
        + 0.3 * (0.5 - default 0.5 (mkt_probability market))
  /\ (direction s = YES <-> default 0.5 (mkt_probability market) < 0.5)
  /\ 0.2 <= confidence s <= 0.9
  /\ strength s <= 1.
Proof.
  intros H. apply value_signal_cases in H. cbv zeta in H.
  set (p := default 0.5 (mkt_probability market)) in *.
  destruct H as (Hl & Ht & H10 & _ & Hp & Hd & Hc & Hs).
  split; [exact Ht|]. split; [exact H10|]. split; [exact Hl|].
  split; [rewrite Hp; ring|]. split; [|split].
  - rewrite Hd. destruct (Qlt_bool p (0.5 + (p - 0.5) * 0.7)) eqn:E; reflect_cmp;
      split; intros H; try reflexivity; try discriminate; lra.
  - rewrite Hc. unfold Value._calculate_confidence. cbv zeta.
    split; [apply py_max_ge_l|]. apply py_max_lub; [lra | apply py_min_le_l].
  - rewrite Hs.
    match goal with |- py_min ?a ?b <= _ => pose proof (py_min_le_l a b) end. lra.
Qed.

Lemma X27_value_signal_shape_witness :
  match Value.analyze no_format no_format no_format (Value.init None None None)
          {| mkt_probability := Some 0.90; mkt_volume := Some 1000;
             mkt_uniqueBettorCount := Some 7;
             mkt_pool := Some {[ "YES" := 100; "NO" := 50 ]} |} with
  | Some s => default 0 (Some 7) < 10
  | None => True
  end.
Proof.
  destruct (Value.analyze _ _ _ _ _) as [s|] eqn:Hs; [|exact I].
  exact (proj1 (proj2 (X27_value_signal_shape _ _ _ _ _ s Hs))).
Defined.

(** X28: the directional edge of a value signal is its value gap,
    [0.3 * |quote - 0.5|], which is at least [value_threshold]; with a
    threshold of at least 0.05 (the default is 0.10) and a quote strictly
    between 0 and 1, the sizer never rejects a value signal for insufficient
    edge or for its Kelly fraction. *)
Theorem X28_value_signal_clears_edge (format_1pct format_0f format_str : Q -> string)
    (self : Value.ValueStrategy) (market : MarketSnapshot) (s : StrategySignal)
    (rm : RiskManager) (balance : Q) :
  Value.analyze format_1pct format_0f format_str self market = Some s ->
  directional_edge s (default 0.5 (mkt_probability market))
  == 0.3 * Qabs (default 0.5 (mkt_probability market) - 0.5)
  /\ Value.value_threshold self
     <= directional_edge s (default 0.5 (mkt_probability market))
  /\ (0.05 <= Value.value_threshold self ->
      0 < default 0.5 (mkt_probability market) < 1 ->
      exists k, 0 < k
                /\ calculate_bet_size rm s (as_market market) balance
                   = Ok (fit_portfolio rm
                           (apply_limits rm
                              (k * kelly_fraction rm * balance * confidence s))
                           balance)).
Proof.
  intros H. apply value_signal_cases in H. cbv zeta in H.
  set (p := default 0.5 (mkt_probability market)) in *.
  destruct H as (_ & _ & _ & Hgap & Hp & Hd & _ & _).
  assert (Hedge : directional_edge s p == Qabs (0.5 + (p - 0.5) * 0.7 - p)).
  { unfold directional_edge. rewrite Hd, Hp.
    destruct (Qlt_bool p (0.5 + (p - 0.5) * 0.7)) eqn:E; reflect_cmp.
    - rewrite Qabs_pos by lra. reflexivity.
    - rewrite Qabs_neg by lra. ring. }
  assert (Hform : Qabs (0.5 + (p - 0.5) * 0.7 - p) == 0.3 * Qabs (p - 0.5)).
  { assert (E : 0.5 + (p - 0.5) * 0.7 - p == (- 0.3) * (p - 0.5)) by ring.
    rewrite E, Qabs_Qmult. reflexivity. }
  split; [now rewrite Hedge, Hform|]. split; [now rewrite Hedge|].
  intros Hth Hin. apply sized_when_edge_clears; [exact Hin|].
  change (quoted_probability (as_market market)) with p. rewrite Hedge. lra.
Qed.

Lemma X28_value_signal_clears_edge_witness :
  match Value.analyze no_format no_format no_format (Value.init None None None)
          {| mkt_probability := Some 0.90; mkt_volume := Some 1000;
             mkt_uniqueBettorCount := Some 7;
             mkt_pool := Some {[ "YES" := 100; "NO" := 50 ]} |} with
  | Some s => Value.value_threshold (Value.init None None None)
              <= directional_edge s 0.90
  | None => True
  end.
Proof.
  destruct (Value.analyze _ _ _ _ _) as [s|] eqn:Hs; [|exact I].
  exact (proj1 (proj2 (X28_value_signal_clears_edge _ _ _ _ _ s default_manager 1000 Hs))).
Defined.

(* ===================================================================== *)
(** ** Sizing: the amount in closed form *)
(* ===================================================================== *)

Lemma apply_limits_within (self : RiskManager) (c : Q) :
  min_bet_amount self <= c <= max_bet_amount self ->
  apply_limits self c == c.
Proof.
  intros [Hlo Hhi]. unfold apply_limits, py_max, py_min.
  repeat (split_cmp; reflect_cmp); lra.
Qed.

Lemma fit_portfolio_accepts (self : RiskManager) (bet balance : Q) :
  min_bet_amount self <= bet ->
  _get_current_risk self + bet <= max_portfolio_risk self * balance ->
  fit_portfolio self bet balance = Some (py_round bet 2).
Proof.
  intros Hlo Hroom. unfold fit_portfolio, _check_portfolio_risk. cbv zeta.
  apply Qle_bool_iff in Hroom. rewrite Hroom. simpl.
  apply Qlt_bool_false in Hlo. now rewrite Hlo.
Qed.

(** X29: on a market quoted at [m] strictly between 0 and 1, with an edge of
    at least 0.05, the raw bet is
    [edge / (1 - m) * kelly_fraction * balance * confidence] for a YES signal
    and [edge / m * kelly_fraction * balance * confidence] for a NO signal;
    when it lies within the bet limits and fits under the portfolio ceiling,
    it is the amount returned, rounded to two decimals. *)
Theorem X29_amount_closed_form (self : RiskManager) (signal : StrategySignal)
    (market : Market) (balance : Q) :
  let m := quoted_probability market in
  let raw := directional_edge signal m / (1 - odds_divisor signal m)
             * kelly_fraction self * balance * confidence signal in
  0 < m < 1 ->
  0.05 <= directional_edge signal m ->
  min_bet_amount self <= raw <= max_bet_amount self ->
  _get_current_risk self + raw <= max_portfolio_risk self * balance ->
  calculate_bet_size self signal market balance = Ok (Some (py_round raw 2)).
Proof.
  intros m raw [H0 H1] He Hlim Hroom.
  destruct (directional_odds_Ok signal m) as (o & Ho & Hedge).
  { unfold odds_divisor. destruct (direction signal); lra. }
  destruct (kelly_closed_form signal m o H0 H1 Ho) as (k & Hk & Hform).
  assert (Hpos : 0 < k).
  { destruct (kelly_positive signal m o H0 H1 Ho) as (k' & Hk' & Hp);
      [rewrite Hedge; lra|].
    rewrite Hk in Hk'. now injection Hk' as <-. }
  rewrite (calculate_bet_size_sized self signal market balance o k Ho
             ltac:(rewrite Hedge; exact He) Hk Hpos).
  assert (Hraw : k * kelly_fraction self * balance * confidence signal == raw).
  { unfold raw. rewrite Hform, Hedge. reflexivity. }
  assert (Hbet : apply_limits self
                   (k * kelly_fraction self * balance * confidence signal) == raw).
  { rewrite (apply_limits_comp self _ raw Hraw). now apply apply_limits_within. }
  rewrite (fit_portfolio_comp self _ raw balance Hbet).
  now rewrite fit_portfolio_accepts.
Qed.

Lemma X29_amount_closed_form_witness :
  calculate_bet_size default_manager (test_signal 0.70 0.80 YES) (market_at 0.50) 1000
  = Ok (Some (py_round
                (directional_edge (test_signal 0.70 0.80 YES) 0.50
                 / (1 - odds_divisor (test_signal 0.70 0.80 YES) 0.50)
                 * kelly_fraction default_manager * 1000
                 * confidence (test_signal 0.70 0.80 YES)) 2)).
Proof.
  apply (X29_amount_closed_form default_manager (test_signal 0.70 0.80 YES)
           (market_at 0.50) 1000).
  - split; vm_compute; reflexivity.
  - vm_compute. intros H. discriminate H.
  - split; vm_compute; intros H; discriminate H.
  - vm_compute. intros H. discriminate H.
Defined.
